(** * Rock-Paper-Scissors AI (src/AI.py): a shallow embedding and its properties

    The Python program is embedded function by function.  Python exceptions
    are the constructors of [exn]; a call that may raise returns a [result];
    code that mutates objects threads the object store explicitly and keeps
    the mutations made before an exception.  Floating-point arithmetic
    ([math.log], [/], [** 0.5]) is kept behind the interface [Float]. *)

From Stdlib Require Import ZArith Reals Lia Ascii.
From stdpp Require Import gmap strings list fin_maps.

Local Open Scope Z_scope.

(** ** Exceptions and results *)

(** The exceptions the program can raise.  [ValueError_math_domain] is the
    ValueError of [math.log] on a non-positive argument; [ValueError] is the
    one of [max] on an empty sequence and of [list.index]. *)
Inductive exn :=
| TypeError
| ValueError
| ValueError_math_domain
| ZeroDivisionError
| KeyError
| IndexError
| AttributeError
| RecursionError
| EOFError
| SystemExit.

Inductive result (A : Type) :=
| Ok (a : A)
| Raise (e : exn).
Arguments Ok {A} a.
Arguments Raise {A} e.

#[global] Instance result_ret : MRet result := fun A a => Ok a.

#[global] Instance result_bind : MBind result := fun A B k r =>
  match r with
  | Ok a => k a
  | Raise e => Raise e
  end.

(** ** Moves: the strings "R", "P", "S" *)

Inductive Move := Rock | Paper | Scissors.

#[global] Instance Move_eq_dec : EqDecision Move.
Proof. solve_decision. Defined.

Definition Move_to_nat (m : Move) : nat :=
  match m with Rock => 0 | Paper => 1 | Scissors => 2 end.

Definition Move_of_nat (n : nat) : Move :=
  match n with 0%nat => Rock | 1%nat => Paper | _ => Scissors end.

#[global] Instance Move_countable : Countable Move.
Proof.
  apply (inj_countable' Move_to_nat Move_of_nat). intros []; reflexivity.
Defined.

Definition Move_to_string (m : Move) : string :=
  match m with Rock => "R" | Paper => "P" | Scissors => "S" end.

(** A round record of the history: [(my_move, opponent_move)]. *)
Definition RoundRecord : Type := Move * Move.

(** ** get_reward (lines 112-117) *)

Definition get_reward (my_move opponent_move : Move) : Z :=
  if decide (my_move = opponent_move) then 0
  else if decide ((my_move, opponent_move) ∈
                  [(Rock, Scissors); (Paper, Rock); (Scissors, Paper)])
       then 1
       else -1.

(** ** Python dictionaries whose iteration order matters

    [max(d, key=d.get)] walks the keys in insertion order, so such a
    dictionary is an association list in insertion order. *)

Definition dict (K V : Type) := list (K * V).

Fixpoint dict_get {K V} `{EqDecision K} (d : dict K V) (k : K) : option V :=
  match d with
  | [] => None
  | (k', v) :: d' => if decide (k = k') then Some v else dict_get d' k
  end.

(** [d[k] += 1]: raises KeyError when [k] is absent. *)
Fixpoint dict_incr {K} `{EqDecision K} (k : K) (d : dict K Z) : result (dict K Z) :=
  match d with
  | [] => Raise KeyError
  | (k', v) :: d' =>
      if decide (k = k') then Ok ((k', v + 1) :: d')
      else d'' ← dict_incr k d'; Ok ((k', v) :: d'')
  end.

(** [max(iterable, key=f)]: the first element whose key is not exceeded;
    ValueError on an empty iterable. *)
Fixpoint max_from {A} (key : A -> Z) (best : A) (l : list A) : A :=
  match l with
  | [] => best
  | x :: l' => if key best <? key x then max_from key x l' else max_from key best l'
  end.

Definition py_max {A} (key : A -> Z) (l : list A) : result A :=
  match l with
  | [] => Raise ValueError
  | x :: l' => Ok (max_from key x l')
  end.

(** [d.get] as the key function of [max(d, key=d.get)]: the keys offered to
    it come from [d] itself, so the lookup never misses. *)
Definition dict_key {K} `{EqDecision K} (d : dict K Z) (k : K) : Z :=
  default 0 (dict_get d k).

Definition dict_argmax {K} `{EqDecision K} (d : dict K Z) : result K :=
  py_max (dict_key d) (d.*1).

(** ** FrequencyCounter (lines 14-22) *)

Module FrequencyCounter.

Record t := { counts : dict Move Z }.

Definition init : t :=
  {| counts := [(Rock, 0); (Paper, 0); (Scissors, 0)] |}.

Definition predict (self : t) (history : list RoundRecord) : result Move :=
  dict_argmax (counts self).

Definition update (self : t) (my_move opponent_move : Move) : result t :=
  c ← dict_incr opponent_move (counts self); Ok {| counts := c |}.

(** The object after a sequence of [update] calls, oldest first. *)
Fixpoint updates (self : t) (rounds : list RoundRecord) : result t :=
  match rounds with
  | [] => Ok self
  | (my, opp) :: rest => self' ← update self my opp; updates self' rest
  end.

Definition count (self : t) (m : Move) : Z := dict_key (counts self) m.

End FrequencyCounter.

(** ** Randomness

    [random.choice(["R","P","S"])] and [random.random() < 0.05] read the
    generator, modelled as an arbitrary stream of draws and a position. *)

Record rng := {
  draws : nat -> Move * bool;
  position : nat;
}.

Definition rng_next (g : rng) : rng :=
  {| draws := draws g; position := S (position g) |}.

Definition random_choice (g : rng) : rng * Move :=
  (rng_next g, (draws g (position g)).1).

Definition random_below_0_05 (g : rng) : rng * bool :=
  (rng_next g, (draws g (position g)).2).

(** ** FirstOrderMarkov (lines 25-41) *)

Module FirstOrderMarkov.

Record t := {
  transitions : dict Move (dict Move Z);
  last : option Move;
}.

Definition init : t :=
  {| transitions := [(Rock, [(Rock, 1); (Paper, 1); (Scissors, 1)]);
                     (Paper, [(Rock, 1); (Paper, 1); (Scissors, 1)]);
                     (Scissors, [(Rock, 1); (Paper, 1); (Scissors, 1)])];
     last := None |}.

(** [d[k] = v] on a key that is present (the position is kept). *)
Fixpoint dict_set {V} (k : Move) (v : V) (d : dict Move V) : dict Move V :=
  match d with
  | [] => [(k, v)]
  | (k', v') :: d' =>
      if decide (k = k') then (k', v) :: d' else (k', v') :: dict_set k v d'
  end.

Definition predict (self : t) (history : list RoundRecord) (g : rng)
  : rng * result Move :=
  match last self with
  | None => let '(g', m) := random_choice g in (g', Ok m)
  | Some l =>
      (g, match dict_get (transitions self) l with
          | None => Raise KeyError
          | Some next_probs => dict_argmax next_probs
          end)
  end.

Definition update (self : t) (my_move opponent_move : Move) : result t :=
  match last self with
  | None => Ok {| transitions := transitions self; last := Some opponent_move |}
  | Some l =>
      match dict_get (transitions self) l with
      | None => Raise KeyError
      | Some row =>
          row' ← dict_incr opponent_move row;
          Ok {| transitions := dict_set l row' (transitions self);
                last := Some opponent_move |}
      end
  end.

End FirstOrderMarkov.

(** ** MirrorStrategy (lines 44-51) *)

Module MirrorStrategy.

Definition predict (history : list RoundRecord) (g : rng) : rng * result Move :=
  match last history with
  | None => let '(g', m) := random_choice g in (g', Ok m)
  | Some (_, opponent) => (g, Ok opponent)
  end.

End MirrorStrategy.

(** ** Objects and references

    The strategy objects and the list that holds them are shared: the
    ensemble keeps a reference to the very list object that [play_rps]
    later appends to.  Objects therefore live in a store, and variables
    hold values: [None] or a reference. *)

Abbreviation loc := nat (only parsing).

Inductive value :=
| VNone
| VRef (l : loc).

Inductive obj :=
| FrequencyCounterObj (self : FrequencyCounter.t)
| FirstOrderMarkovObj (self : FirstOrderMarkov.t)
| MirrorStrategyObj
| FuzzyVotingStrategyObj (strategies : value)
| ListObj (items : list loc).

Abbreviation heap := (gmap loc obj).

(** [len(v)] *)
Definition py_len (h : heap) (v : value) : result nat :=
  match v with
  | VNone => Raise TypeError
  | VRef l =>
      match h !! l with
      | Some (ListObj items) => Ok (length items)
      | _ => Raise TypeError
      end
  end.

(** [v[i]] for a non-negative index *)
Definition py_getitem (h : heap) (v : value) (i : nat) : result loc :=
  match v with
  | VNone => Raise TypeError
  | VRef l =>
      match h !! l with
      | Some (ListObj items) =>
          match items !! i with
          | Some x => Ok x
          | None => Raise IndexError
          end
      | _ => Raise TypeError
      end
  end.

(** [for x in v]: the items iterated over *)
Definition py_iter (h : heap) (v : value) : result (list loc) :=
  match v with
  | VNone => Raise TypeError
  | VRef l =>
      match h !! l with
      | Some (ListObj items) => Ok items
      | _ => Raise TypeError
      end
  end.

(** [lst.append(x)] mutates the list object and returns [None]. *)
Definition list_append (h : heap) (lst : loc) (x : loc) : heap * result value :=
  match h !! lst with
  | Some (ListObj items) => (<[lst := ListObj (items ++ [x])]> h, Ok VNone)
  | _ => (h, Raise AttributeError)
  end.

(** ** Strategy.update, dispatched on the object (lines 21, 38, 50, 65)

    [depth] is the number of call frames still available: Python raises
    RecursionError when the call stack exceeds its limit. *)

(** [for x in items: body(x)] over the store; an exception ends the loop. *)
Fixpoint for_each (body : loc -> heap -> heap * result ()) (items : list loc)
    (h : heap) : heap * result () :=
  match items with
  | [] => (h, Ok ())
  | x :: rest =>
      match body x h with
      | (h', Ok _) => for_each body rest h'
      | (h', Raise e) => (h', Raise e)
      end
  end.

Fixpoint strategy_update (depth : nat) (s : loc) (my_move opponent_move : Move)
    (h : heap) : heap * result () :=
  match depth with
  | O => (h, Raise RecursionError)
  | S depth' =>
      match h !! s with
      | Some (FrequencyCounterObj self) =>
          match FrequencyCounter.update self my_move opponent_move with
          | Ok self' => (<[s := FrequencyCounterObj self']> h, Ok ())
          | Raise e => (h, Raise e)
          end
      | Some (FirstOrderMarkovObj self) =>
          match FirstOrderMarkov.update self my_move opponent_move with
          | Ok self' => (<[s := FirstOrderMarkovObj self']> h, Ok ())
          | Raise e => (h, Raise e)
          end
      | Some MirrorStrategyObj => (h, Ok ())
      | Some (FuzzyVotingStrategyObj strategies) =>
          match py_iter h strategies with
          | Raise e => (h, Raise e)
          | Ok items =>
              for_each (fun x => strategy_update depth' x my_move opponent_move) items h
          end
      | _ => (h, Raise AttributeError)
      end
  end.

(** The loop of lines 189-190: [for strat in strategies: strat.update(...)]. *)
Definition update_all (depth : nat) (strategies : value) (my_move opponent_move : Move)
    (h : heap) : heap * result () :=
  match py_iter h strategies with
  | Raise e => (h, Raise e)
  | Ok items =>
      for_each (fun x => strategy_update depth x my_move opponent_move) items h
  end.

(** ** Strategy.predict, dispatched on the object (lines 18, 32, 45, 58) *)

Definition vote_init : dict Move Z := [(Rock, 0); (Paper, 0); (Scissors, 0)].

(** The voting loop of lines 60-63. *)
Fixpoint tally_votes (predict : loc -> rng -> rng * result Move) (items : list loc)
    (vote : dict Move Z) (g : rng) : rng * result Move :=
  match items with
  | [] => (g, dict_argmax vote)
  | x :: rest =>
      match predict x g with
      | (g', Ok prediction) =>
          match dict_incr prediction vote with
          | Ok vote' => tally_votes predict rest vote' g'
          | Raise e => (g', Raise e)
          end
      | (g', Raise e) => (g', Raise e)
      end
  end.

Fixpoint strategy_predict (depth : nat) (h : heap) (s : loc)
    (history : list RoundRecord) (g : rng) : rng * result Move :=
  match depth with
  | O => (g, Raise RecursionError)
  | S depth' =>
      match h !! s with
      | Some (FrequencyCounterObj self) => (g, FrequencyCounter.predict self history)
      | Some (FirstOrderMarkovObj self) => FirstOrderMarkov.predict self history g
      | Some MirrorStrategyObj => MirrorStrategy.predict history g
      | Some (FuzzyVotingStrategyObj strategies) =>
          match py_iter h strategies with
          | Raise e => (g, Raise e)
          | Ok items =>
              tally_votes (fun x => strategy_predict depth' h x history) items vote_init g
          end
      | _ => (g, Raise AttributeError)
      end
  end.

(** ** counter_move (lines 106-110) *)

Definition counter_move (move : Move) (g : rng) : rng * Move :=
  let '(g1, bluff) := random_below_0_05 g in
  if bluff then random_choice g1
  else (g1, match move with Rock => Paper | Paper => Scissors | Scissors => Rock end).

(** ** Floating point

    The program's floats are kept abstract: [F] stands for the finite
    floats that occur (no NaN, no infinity), with the operations the source
    applies to them.  [f_log] is [math.log] on a positive int, [f_log2] is
    [math.log2], [f_pow_half] is [x ** 0.5] on a non-negative float. *)

Class Float := {
  F : Type;
  f_of_int : Z -> F;
  f_add : F -> F -> F;
  f_mul : F -> F -> F;
  f_div : F -> F -> F;
  f_neg : F -> F;
  f_log : Z -> F;
  f_log2 : F -> F;
  f_pow_half : F -> F;
  f_ltb : F -> F -> bool;
  f_eqb : F -> F -> bool;
  f_1_5 : F;
}.

(** The float literal [0.0]. *)
Definition f_zero `{Float} : F := f_of_int 0.

(** [<] and [==] on finite floats: a strict total order with its equality. *)
Class FloatOrder (fl : Float) : Prop := {
  f_ltb_irrefl : forall x : F, f_ltb x x = false;
  f_ltb_trans : forall x y z : F, f_ltb x y = true -> f_ltb y z = true -> f_ltb x z = true;
  f_ltb_cotrans : forall x y z : F,
      f_ltb x y = true -> f_ltb x z = true \/ f_ltb z y = true;
  f_eqb_spec : forall x y : F, f_eqb x y = true <-> (f_ltb x y = false /\ f_ltb y x = false);
}.

(** ** Console: the lines still to be read by [input()] and what [print]
    has written (oldest first). *)

Inductive output_line `{Float} :=
| Reprompt
| Report (you ai : string) (message : string) (ratio_percent : F).

Record console `{Float} := {
  stdin : list string;
  stdout : list output_line;
}.

Definition print `{Float} (line : output_line) (io : console) : console :=
  {| stdin := stdin io; stdout := stdout io ++ [line] |}.

(** ** get_opponent_move (lines 119-126) *)

(** [str.upper()].  A string stands for the UTF-8 encoding of the Python
    string.  On ASCII text [upper] turns a-z into A-Z and leaves every other
    character alone; on any other text it follows the Unicode case tables
    (the long s, for one, becomes S), which are kept behind
    [unicode_upper]. *)
Class Unicode := { unicode_upper : string -> string }.

Definition ascii_upper (c : ascii) : ascii :=
  let n := nat_of_ascii c in
  if ((97 <=? n) && (n <=? 122))%nat then ascii_of_nat (n - 32) else c.

Fixpoint str_upper_ascii (s : string) : string :=
  match s with
  | EmptyString => EmptyString
  | String c s' => String (ascii_upper c) (str_upper_ascii s')
  end.

Fixpoint ascii_only (s : string) : bool :=
  match s with
  | EmptyString => true
  | String c s' => (nat_of_ascii c <? 128)%nat && ascii_only s'
  end.

Definition str_upper {uc : Unicode} (s : string) : string :=
  if ascii_only s then str_upper_ascii s else unicode_upper s.

(** [needle in hay] on strings: substring containment. *)
Fixpoint str_in (needle hay : string) : bool :=
  String.prefix needle hay ||
  match hay with
  | EmptyString => false
  | String _ hay' => str_in needle hay'
  end.

(** The [while True] loop reads one line per iteration; it ends by a
    [return], by [exit()] (SystemExit) or, when [input()] finds the input
    closed, by EOFError. *)
Fixpoint get_opponent_move_lines `{Float} {uc : Unicode} (lines : list string)
    (out : list output_line)
  : console * result string :=
  match lines with
  | [] => ({| stdin := []; stdout := out |}, Raise EOFError)
  | line :: rest =>
      let choice := str_upper line in
      if str_in choice "RPS" && negb (String.eqb choice "") then
        ({| stdin := rest; stdout := out |}, Ok choice)
      else if String.eqb choice "E" then
        ({| stdin := rest; stdout := out |}, Raise SystemExit)
      else get_opponent_move_lines rest (out ++ [Reprompt])
  end.

Definition get_opponent_move `{Float} {uc : Unicode} (io : console)
  : console * result string :=
  get_opponent_move_lines (stdin io) (stdout io).

(** The strings the rest of the program accepts as moves. *)
Definition Move_of_string (s : string) : option Move :=
  if String.eqb s "R" then Some Rock
  else if String.eqb s "P" then Some Paper
  else if String.eqb s "S" then Some Scissors
  else None.

(** ** BanditController (lines 71-102) *)

(** A context key: the tuple [(None, None, None)] or the last three round
    records. *)
Definition Context : Type := list (option RoundRecord).

(** Statistics of one context: index ↦ [[cumulative reward, pull count]]. *)
Abbreviation ContextStats := (gmap nat (F * Z)).

Module BanditController.

Record t `{Float} := {
  strategies : value;
  context_memory : gmap Context ContextStats;
}.

(** [__init__] *)
Definition new `{Float} (strategies : value) : t :=
  {| strategies := strategies; context_memory := ∅ |}.

Definition _context_key (history : list RoundRecord) : Context :=
  if (length history <? 3)%nat then [None; None; None]
  else Some <$> drop (length history - 3) history.

(** [{i: [0.0, 1] for i in range(n)}] *)
Definition fresh_stats `{Float} (n : nat) : ContextStats :=
  list_to_map ((fun i => (i, (f_zero, 1))) <$> seq 0 n).

(** Lines 83-86 and 97-100: create the context's statistics on first
    sight.  [len(self.strategies)] is evaluated before the assignment. *)
Definition ensure_context `{Float} (h : heap) (context : Context) (self : t)
  : t * result () :=
  match context_memory self !! context with
  | Some _ => (self, Ok ())
  | None =>
      match py_len h (strategies self) with
      | Ok n =>
          ({| strategies := strategies self;
              context_memory := <[context := fresh_stats n]> (context_memory self) |},
           Ok ())
      | Raise e => (self, Raise e)
      end
  end.

(** [sum(c for _, c in stats.values())]: a sum of ints, so the order of
    the values does not matter. *)
Definition total_pulls `{Float} (stats : ContextStats) : Z :=
  map_fold (fun _ rc acc => rc.2 + acc) 0 stats.

(** One entry of [ucb_scores], in the order Python evaluates it: the
    average (a division by the pull count), then [math.log(total)], then
    the second division. *)
Definition ucb_score `{Float} (stats : ContextStats) (total : Z) (i : nat) : result F :=
  match stats !! i with
  | None => Raise KeyError
  | Some (reward, count) =>
      if count =? 0 then Raise ZeroDivisionError
      else
        let average := f_div reward (f_of_int count) in
        if total <=? 0 then Raise ValueError_math_domain
        else
          Ok (f_add average
                (f_mul (f_of_int 2)
                   (f_pow_half (f_div (f_log total) (f_of_int count)))))
  end.

(** [max(scores)]: the first element no later one exceeds. *)
Fixpoint f_max_from `{Float} (best : F) (l : list F) : F :=
  match l with
  | [] => best
  | x :: l' => if f_ltb best x then f_max_from x l' else f_max_from best l'
  end.

Definition f_max `{Float} (l : list F) : result F :=
  match l with
  | [] => Raise ValueError
  | x :: l' => Ok (f_max_from x l')
  end.

(** [scores.index(v)]: the first position holding a value equal to [v]. *)
Fixpoint f_index `{Float} (v : F) (l : list F) : result nat :=
  match l with
  | [] => Raise ValueError
  | x :: l' => if f_eqb x v then Ok 0%nat else i ← f_index v l'; Ok (S i)
  end.

Definition select_strategy `{Float} (h : heap) (history : list RoundRecord) (self : t)
  : t * result nat :=
  let context := _context_key history in
  match ensure_context h context self with
  | (self', Raise e) => (self', Raise e)
  | (self', Ok _) =>
      (self',
       match context_memory self' !! context with
       | None => Raise KeyError
       | Some stats =>
           let total := total_pulls stats in
           n ← py_len h (strategies self');
           ucb_scores ← mapM (ucb_score stats total) (seq 0 n);
           best ← f_max ucb_scores;
           f_index best ucb_scores
       end)
  end.

Definition update `{Float} (h : heap) (history : list RoundRecord) (index : nat)
    (reward : Z) (self : t) : t * result () :=
  let context := _context_key history in
  match ensure_context h context self with
  | (self', Raise e) => (self', Raise e)
  | (self', Ok _) =>
      match context_memory self' !! context with
      | None => (self', Raise KeyError)
      | Some stats =>
          match stats !! index with
          | None => (self', Raise KeyError)
          | Some (r, c) =>
              ({| strategies := strategies self';
                  context_memory :=
                    <[context := <[index := (f_add r (f_of_int reward), c + 1)]> stats]>
                      (context_memory self') |},
               Ok ())
          end
      end
  end.

End BanditController.

(** ** entropy (lines 129-141) *)

(** [collections.Counter(moves)]: counts in first-seen order. *)
Fixpoint Counter_add (m : Move) (d : dict Move Z) : dict Move Z :=
  match d with
  | [] => [(m, 1)]
  | (k, v) :: d' => if decide (m = k) then (k, v + 1) :: d' else (k, v) :: Counter_add m d'
  end.

Definition Counter (moves : list Move) : dict Move Z :=
  foldl (fun d m => Counter_add m d) [] moves.

Definition entropy `{Float} (moves : list Move) : F :=
  let counts := Counter moves in
  let total := foldl Z.add 0 (counts.*2) in
  if 0 <? total then
    let results :=
      (fun count =>
         let ratio := f_div (f_of_int count) (f_of_int total) in
         f_mul ratio (f_log2 ratio)) <$> counts.*2 in
    f_neg (foldl f_add (f_of_int 0) results)
  else f_of_int 0.

(** ** play_rps (lines 145-200) *)

(** The local variables of [play_rps]; [entropy_threshold] is [f_1_5] and
    [entropy_window] is [10]. *)
Record locals `{Float} := {
  history : list RoundRecord;
  raw_opponent_moves : list Move;
  strategies : value;
  bandit : BanditController.t;
  entropy_stable_rounds : Z;
  plays : Z;
  entropy_counter : Z;
  ai_wins : Z;
  player_wins : Z;
}.

Definition entropy_window : Z := 10.

(** Lines 146-160.  The store after [base_strategies.append(fuzzy)]; the
    variable [strategies] receives what [append] returns. *)
Definition freq_loc : loc := 0%nat.
Definition markov_loc : loc := 1%nat.
Definition mirror_loc : loc := 2%nat.
Definition base_strategies_loc : loc := 3%nat.
Definition fuzzy_loc : loc := 4%nat.

Definition heap_before_append : heap :=
  <[fuzzy_loc := FuzzyVotingStrategyObj (VRef base_strategies_loc)]>
  (<[base_strategies_loc := ListObj [freq_loc; markov_loc; mirror_loc]]>
   (<[mirror_loc := MirrorStrategyObj]>
    (<[markov_loc := FirstOrderMarkovObj FirstOrderMarkov.init]>
     (<[freq_loc := FrequencyCounterObj FrequencyCounter.init]> ∅)))).

Definition initial_locals `{Float} (strategies : value) : locals :=
  {| history := [];
     raw_opponent_moves := [];
     strategies := strategies;
     bandit := BanditController.new strategies;
     entropy_stable_rounds := 0;
     plays := 0;
     entropy_counter := 0;
     ai_wins := 0;
     player_wins := 0 |}.

Definition play_rps_setup `{Float} : result (heap * locals) :=
  let '(h, appended) := list_append heap_before_append base_strategies_loc fuzzy_loc in
  strategies ← appended;
  Ok (h, initial_locals strategies).

(** Lines 162-163. *)
Definition round_begin `{Float} (st : locals) : locals :=
  {| history := history st;
     raw_opponent_moves := raw_opponent_moves st;
     strategies := strategies st;
     bandit := bandit st;
     entropy_stable_rounds := entropy_stable_rounds st;
     plays := plays st + 1;
     entropy_counter := entropy_counter st + 1;
     ai_wins := ai_wins st;
     player_wins := player_wins st |}.

(** Lines 164-165: the selected index and the strategy object it names. *)
Definition round_select `{Float} (h : heap) (st : locals) : result (locals * nat * loc) :=
  match BanditController.select_strategy h (history st) (bandit st) with
  | (_, Raise e) => Raise e
  | (bandit', Ok strat_idx) =>
      strategy ← py_getitem h (strategies st) strat_idx;
      Ok ({| history := history st;
             raw_opponent_moves := raw_opponent_moves st;
             strategies := strategies st;
             bandit := bandit';
             entropy_stable_rounds := entropy_stable_rounds st;
             plays := plays st;
             entropy_counter := entropy_counter st;
             ai_wins := ai_wins st;
             player_wins := player_wins st |}, strat_idx, strategy)
  end.

(** Line 171. *)
Definition round_record_raw `{Float} (opponent_move : Move) (st : locals) : locals :=
  {| history := history st;
     raw_opponent_moves := raw_opponent_moves st ++ [opponent_move];
     strategies := strategies st;
     bandit := bandit st;
     entropy_stable_rounds := entropy_stable_rounds st;
     plays := plays st;
     entropy_counter := entropy_counter st;
     ai_wins := ai_wins st;
     player_wins := player_wins st |}.

(** Lines 174-184, the regime-shift detector. *)
Definition entropy_evaluated `{Float} (st : locals) : bool :=
  entropy_window <=? entropy_counter st.

Definition recent_entropy `{Float} (st : locals) : F :=
  entropy (drop (length (raw_opponent_moves st) - Z.to_nat entropy_window)
             (raw_opponent_moves st)).

Definition stable_rounds_after `{Float} (st : locals) : Z :=
  if f_ltb f_1_5 (recent_entropy st) then entropy_stable_rounds st + 1 else 0.

Definition regime_shift `{Float} (st : locals) : bool :=
  entropy_evaluated st && (3 <=? stable_rounds_after st).

Definition detector `{Float} (st : locals) : locals :=
  if entropy_evaluated st then
    if 3 <=? stable_rounds_after st then
      {| history := history st;
         raw_opponent_moves := raw_opponent_moves st;
         strategies := strategies st;
         bandit := BanditController.new (strategies st);
         entropy_stable_rounds := 0;
         plays := plays st;
         entropy_counter := entropy_counter st mod entropy_window;
         ai_wins := ai_wins st;
         player_wins := player_wins st |}
    else
      {| history := history st;
         raw_opponent_moves := raw_opponent_moves st;
         strategies := strategies st;
         bandit := bandit st;
         entropy_stable_rounds := stable_rounds_after st;
         plays := plays st;
         entropy_counter := entropy_counter st;
         ai_wins := ai_wins st;
         player_wins := player_wins st |}
  else st.

(** Lines 192-200: the history entry, the tallies and the printed report.
    [ai_wins / plays] divides two ints. *)
Definition round_report `{Float} (my_move opponent_move : Move) (reward : Z)
    (st : locals) (io : console) : result (locals * console) :=
  let player_won := reward =? 0 in
  let player_wins' := if player_won then player_wins st + 1 else player_wins st in
  let ai_wins' := if player_won then ai_wins st else ai_wins st + 1 in
  if plays st =? 0 then Raise ZeroDivisionError
  else
    let ratio := f_div (f_of_int ai_wins') (f_of_int (plays st)) in
    let message := if player_won then "You win!" else "AI wins!" in
    Ok ({| history := history st ++ [(my_move, opponent_move)];
           raw_opponent_moves := raw_opponent_moves st;
           strategies := strategies st;
           bandit := bandit st;
           entropy_stable_rounds := entropy_stable_rounds st;
           plays := plays st;
           entropy_counter := entropy_counter st;
           ai_wins := ai_wins';
           player_wins := player_wins' |},
        print (Report (Move_to_string opponent_move) (Move_to_string my_move)
                 message (f_mul ratio (f_of_int 100))) io).

Definition set_bandit `{Float} (b : BanditController.t) (st : locals) : locals :=
  {| history := history st;
     raw_opponent_moves := raw_opponent_moves st;
     strategies := strategies st;
     bandit := b;
     entropy_stable_rounds := entropy_stable_rounds st;
     plays := plays st;
     entropy_counter := entropy_counter st;
     ai_wins := ai_wins st;
     player_wins := player_wins st |}.

(** One iteration of the [while True] loop (lines 162-200).  An exception
    is not caught anywhere, so it ends the program and the state is dropped.
    The statements after line 171 are embedded for moves; a returned string
    that is not a move ("RP", "PS", "RPS") reaches, in the collection
    [play_rps] builds, the FrequencyCounter first, whose
    [counts[opponent_move]] (line 22) raises KeyError, and the iteration is
    cut short with that exception. *)
Definition play_round `{Float} {uc : Unicode} (depth : nat) (h : heap) (st : locals) (g : rng)
    (io : console) : result (heap * locals * rng * console) :=
  let st := round_begin st in
  '(st, strat_idx, strategy) ← round_select h st;
  let '(g, predicted) := strategy_predict depth h strategy (history st) g in
  opponent_pred ← predicted;
  let '(g, my_move) := counter_move opponent_pred g in
  let '(io, answer) := get_opponent_move io in
  choice ← answer;
  match Move_of_string choice with
  | None => Raise KeyError
  | Some opponent_move =>
      let st := detector (round_record_raw opponent_move st) in
      let reward := get_reward my_move opponent_move in
      let '(bandit', updated) :=
        BanditController.update h (history st) strat_idx reward (bandit st) in
      _ ← updated;
      let st := set_bandit bandit' st in
      let '(h, updated) := update_all depth (strategies st) my_move opponent_move h in
      _ ← updated;
      '(st, io) ← round_report my_move opponent_move reward st io;
      Ok (h, st, g, io)
  end.

(** The first [iterations] iterations of the loop.  (The Python parameter
    [rounds] of [play_rps] is never read.) *)
Fixpoint play_rounds `{Float} {uc : Unicode} (iterations depth : nat) (h : heap) (st : locals)
    (g : rng) (io : console) : result (heap * locals * rng * console) :=
  match iterations with
  | O => Ok (h, st, g, io)
  | S k =>
      '(h, st, g, io) ← play_round depth h st g io;
      play_rounds k depth h st g io
  end.

Definition play_rps `{Float} {uc : Unicode} (iterations depth : nat) (g : rng) (io : console)
  : result (heap * locals * rng * console) :=
  '(h, st) ← play_rps_setup;
  play_rounds iterations depth h st g io.

(** A store in which the collection can be iterated: the four strategies in
    one list, the ensemble holding a separate list of the three base
    strategies. *)
Definition members_loc : loc := 5%nat.

Definition heap_separate_members : heap :=
  <[members_loc := ListObj [freq_loc; markov_loc; mirror_loc]]>
  (<[fuzzy_loc := FuzzyVotingStrategyObj (VRef members_loc)]>
   (<[base_strategies_loc := ListObj [freq_loc; markov_loc; mirror_loc; fuzzy_loc]]>
    heap_before_append)).

(** A dictionary with exactly the keys R, P, S, in this order. *)
Definition dict_full (d : dict Move Z) : Prop := d.*1 = [Rock; Paper; Scissors].

(** The objects of [play_rps] in a shape every update accepts. *)
Record heap_ok (h : heap) : Prop := {
  heap_ok_freq : exists self,
      h !! freq_loc = Some (FrequencyCounterObj self) /\
      dict_full (FrequencyCounter.counts self);
  heap_ok_markov : exists self,
      h !! markov_loc = Some (FirstOrderMarkovObj self) /\
      (FirstOrderMarkov.transitions self).*1 = [Rock; Paper; Scissors] /\
      Forall dict_full (FirstOrderMarkov.transitions self).*2;
  heap_ok_mirror : h !! mirror_loc = Some MirrorStrategyObj;
  heap_ok_list :
    h !! base_strategies_loc = Some (ListObj [freq_loc; markov_loc; mirror_loc; fuzzy_loc]);
  heap_ok_fuzzy :
    h !! fuzzy_loc = Some (FuzzyVotingStrategyObj (VRef base_strategies_loc));
}.

(** The detector's share of one iteration: lines 162-163, 171 and 174-184.
    The other statements of the loop body leave [entropy_counter],
    [entropy_stable_rounds] and [raw_opponent_moves] alone. *)
Definition detector_round `{Float} (st : locals) (opponent_move : Move) : locals :=
  detector (round_record_raw opponent_move (round_begin st)).

Definition detector_rounds `{Float} (st : locals) (moves : list Move) : locals :=
  foldl detector_round st moves.

(** ** Controller states

    The states a controller built over [strategies] can be in, the store
    being the one the calls see. *)
Inductive reachable `{Float} (h : heap) (strategies : value) : BanditController.t -> Prop :=
| reachable_new : reachable h strategies (BanditController.new strategies)
| reachable_select c history :
    reachable h strategies c ->
    reachable h strategies (BanditController.select_strategy h history c).1
| reachable_update c history index reward :
    reachable h strategies c ->
    reachable h strategies (BanditController.update h history index reward c).1.

(** The statistics of one context over [n] predictors: exactly the indices
    below [n], each with a pull count of at least 1. *)
Definition stats_ok `{Float} (n : nat) (stats : ContextStats) : Prop :=
  (forall i, is_Some (stats !! i) <-> (i < n)%nat) /\
  (forall i rc, stats !! i = Some rc -> 1 <= rc.2).

Definition controller_ok `{Float} (n : nat) (v : value) (c : BanditController.t) : Prop :=
  BanditController.strategies c = v /\
  forall context stats,
    BanditController.context_memory c !! context = Some stats -> stats_ok n stats.

(** The pull count of index [i], and the sum of the pull counts of the
    indices below [n]. *)
Definition pull_count `{Float} (stats : ContextStats) (i : nat) : Z :=
  match stats !! i with
  | Some rc => rc.2
  | None => 0
  end.

Fixpoint sum_pulls `{Float} (n : nat) (stats : ContextStats) : Z :=
  match n with
  | O => 0
  | S k => sum_pulls k stats + pull_count stats k
  end.

(** The UCB1 score as the specification words it:
    (cumulativeReward_i / pullCount_i)
      + 2 * sqrt(ln(totalPullsInContext) / pullCount_i). *)
Definition ucb1_spec `{Float} (stats : ContextStats) (total : Z) (i : nat) : F :=
  match stats !! i with
  | Some (cumulative_reward, pulls) =>
      f_add (f_div cumulative_reward (f_of_int pulls))
            (f_mul (f_of_int 2) (f_pow_half (f_div (f_log total) (f_of_int pulls))))
  | None => f_zero
  end.

(** ** A coarse float

    Fixed-point numbers in thousandths, with rough logarithms and square
    roots: enough to run the definitions on concrete inputs. *)
Definition pow256 (x : Z) : Z :=
  let x2 := x * x in
  let x4 := x2 * x2 in
  let x8 := x4 * x4 in
  let x16 := x8 * x8 in
  let x32 := x16 * x16 in
  let x64 := x32 * x32 in
  let x128 := x64 * x64 in
  x128 * x128.

Definition MilliFloat : Float := {|
  F := Z;
  f_of_int z := 1000 * z;
  f_add := Z.add;
  f_mul x y := x * y / 1000;
  f_div x y := 1000 * x / y;
  f_neg := Z.opp;
  f_log z := 693 * Z.log2 (pow256 z) / 256;
  f_log2 x := 1000 * Z.log2 (pow256 x) / 256 - 9966;
  f_pow_half x := Z.sqrt (1000 * x);
  f_ltb := Z.ltb;
  f_eqb := Z.eqb;
  f_1_5 := 1500;
|}.

(** A case table that leaves text outside ASCII as it is; the inputs it is
    used with are ASCII. *)
Definition PlainUnicode : Unicode := {| unicode_upper := fun s => s |}.

(** Concrete inputs on which the statements below are exercised: a
    collection of four strategies, and an opponent whose last ten moves stay
    close to uniform for three evaluations in a row. *)
Definition four_strategies : value := VRef base_strategies_loc.

Definition uniform_moves : list Move :=
  [Rock; Paper; Scissors; Rock; Paper; Scissors; Rock; Paper; Scissors; Rock; Paper].

Definition locals_before_shift : locals (H := MilliFloat) :=
  round_record_raw Scissors
    (round_begin (detector_rounds (initial_locals four_strategies) uniform_moves)).

(** ** Vocabulary of the further properties *)

(** How often [m] occurs in a sequence of moves, and how often the move [a]
    is immediately followed by [b]. *)
Fixpoint occurrences (m : Move) (ms : list Move) : Z :=
  match ms with
  | [] => 0
  | x :: rest => (if decide (x = m) then 1 else 0) + occurrences m rest
  end.

Fixpoint count_pairs (a b : Move) (ms : list Move) : Z :=
  match ms with
  | [] => 0
  | x :: rest =>
      match rest with
      | y :: _ => if decide (x = a /\ y = b) then 1 else 0
      | [] => 0
      end + count_pairs a b rest
  end.

(** A FirstOrderMarkov object after a sequence of [update] calls, oldest
    first, and one cell [transitions[a][b]] of its table. *)
Fixpoint FirstOrderMarkov_updates (self : FirstOrderMarkov.t) (rounds : list RoundRecord)
  : result FirstOrderMarkov.t :=
  match rounds with
  | [] => Ok self
  | (my, opp) :: rest =>
      self' ← FirstOrderMarkov.update self my opp; FirstOrderMarkov_updates self' rest
  end.

Definition FirstOrderMarkov_cell (self : FirstOrderMarkov.t) (a b : Move) : option Z :=
  row ← dict_get (FirstOrderMarkov.transitions self) a; dict_get row b.

(** A full table written from its cells. *)
Definition row_of (f : Move -> Z) : dict Move Z :=
  [(Rock, f Rock); (Paper, f Paper); (Scissors, f Scissors)].

Definition table_of (cell : Move -> Move -> Z) : dict Move (dict Move Z) :=
  [(Rock, row_of (cell Rock)); (Paper, row_of (cell Paper));
   (Scissors, row_of (cell Scissors))].

Definition bump (cell : Move -> Move -> Z) (a b : Move) : Move -> Move -> Z :=
  fun x y => if decide (x = a /\ y = b) then cell x y + 1 else cell x y.

(** The move that beats [m]. *)
Definition beats (m : Move) : Move :=
  match m with Rock => Paper | Paper => Scissors | Scissors => Rock end.

(** What [get_opponent_move] does with one input line: return it, end the
    program, or ask again. *)
Definition line_accepted {uc : Unicode} (line : string) : bool :=
  str_in (str_upper line) "RPS" && negb (String.eqb (str_upper line) "").

Definition line_rejected {uc : Unicode} (line : string) : bool :=
  negb (line_accepted line) && negb (String.eqb (str_upper line) "E").

(** A store whose strategy collection is the empty list. *)
Definition heap_no_strategies : heap := <[base_strategies_loc := ListObj []]> ∅.

(** The predictions the members of an ensemble make, in order, the random
    source being handed from one to the next; the first exception ends the
    round of questions. *)
Fixpoint member_predictions (predict : loc -> rng -> rng * result Move) (items : list loc)
    (g : rng) : rng * result (list Move) :=
  match items with
  | [] => (g, Ok [])
  | x :: rest =>
      match predict x g with
      | (g', Ok p) =>
          match member_predictions predict rest g' with
          | (g'', Ok ps) => (g'', Ok (p :: ps))
          | (g'', Raise e) => (g'', Raise e)
          end
      | (g', Raise e) => (g', Raise e)
      end
  end.

(** The objects of a store in which the ensemble holds its own list of the
    three base strategies, and the count the FrequencyCounter of a store
    keeps for a move. *)
Record heap_separate_ok (h : heap) : Prop := {
  heap_separate_freq : exists self,
      h !! freq_loc = Some (FrequencyCounterObj self) /\
      dict_full (FrequencyCounter.counts self);
  heap_separate_markov : exists self,
      h !! markov_loc = Some (FirstOrderMarkovObj self) /\
      (FirstOrderMarkov.transitions self).*1 = [Rock; Paper; Scissors] /\
      Forall dict_full (FirstOrderMarkov.transitions self).*2;
  heap_separate_mirror : h !! mirror_loc = Some MirrorStrategyObj;
  heap_separate_list :
    h !! base_strategies_loc = Some (ListObj [freq_loc; markov_loc; mirror_loc; fuzzy_loc]);
  heap_separate_fuzzy :
    h !! fuzzy_loc = Some (FuzzyVotingStrategyObj (VRef members_loc));
  heap_separate_list_members :
    h !! members_loc = Some (ListObj [freq_loc; markov_loc; mirror_loc]);
}.

Definition frequency_count (h : heap) (m : Move) : Z :=
  match h !! freq_loc with
  | Some (FrequencyCounterObj self) => FrequencyCounter.count self m
  | _ => 0
  end.

(** The tallies agree with the history: one round played per record, each
    counted for one side. *)
Definition tallies_ok `{Float} (st : locals) : Prop :=
  plays st = Z.of_nat (length (history st)) /\
  plays st = ai_wins st + player_wins st /\
  length (raw_opponent_moves st) = length (history st).

(** How often the index [i] occurs in a sequence of updates
    [(index, reward)], and the controller after these updates for one
    history. *)
Fixpoint pulls_of (i : nat) (ups : list (nat * Z)) : Z :=
  match ups with
  | [] => 0
  | (j, _) :: rest => (if decide (j = i) then 1 else 0) + pulls_of i rest
  end.

Definition updates_for `{Float} (h : heap) (history : list RoundRecord)
    (ups : list (nat * Z)) (c : BanditController.t) : BanditController.t :=
  foldl (fun c u => (BanditController.update h history u.1 u.2 c).1) c ups.

(** A controller that has learned something, and the locals of the
    iteration that signals a shift, holding that controller. *)
Definition learned_controller : BanditController.t (H := MilliFloat) :=
  (BanditController.update heap_separate_members [(Rock, Paper)] 1 1
     (BanditController.update heap_separate_members [] 2 (-1)
        (BanditController.new four_strategies)).1).1.

Definition locals_learned_before_shift : locals (H := MilliFloat) :=
  set_bandit learned_controller locals_before_shift.

(** * Properties *)

(** ** The coarse float is ordered *)

Lemma MilliFloat_order : FloatOrder MilliFloat.
Proof.
  split; cbn.
  - intros x. apply Z.ltb_irrefl.
  - intros x y z. rewrite !Z.ltb_lt. lia.
  - intros x y z. rewrite !Z.ltb_lt. lia.
  - intros x y. rewrite Z.eqb_eq, !Z.ltb_ge. lia.
Defined.

(** ** get_reward and FrequencyCounter *)

(** C9: get_reward is antisymmetric on distinct moves and zero on equal
    moves. *)
Theorem get_reward_antisymmetric :
  (forall a b : Move, a <> b -> get_reward a b = - get_reward b a) /\
  (forall a : Move, get_reward a a = 0).
Proof.
  split.
  - intros [] [] Hab; try reflexivity; congruence.
  - intros []; reflexivity.
Qed.

Lemma FrequencyCounter_shape (rounds : list RoundRecord) :
  exists r p s,
    FrequencyCounter.updates FrequencyCounter.init rounds =
    Ok {| FrequencyCounter.counts := [(Rock, r); (Paper, p); (Scissors, s)] |}.
Proof.
  unfold FrequencyCounter.init.
  generalize 0 at 1; generalize 0 at 1; generalize 0 at 1.
  induction rounds as [|[my opp] rest IH]; intros s p r.
  - by exists r, p, s.
  - destruct opp; cbn; apply IH.
Qed.

Lemma dict_key_RPS (r p s : Z) (m : Move) :
  dict_key [(Rock, r); (Paper, p); (Scissors, s)] m =
  match m with Rock => r | Paper => p | Scissors => s end.
Proof. destruct m; reflexivity. Qed.

(** ** get_opponent_move *)

Lemma str_in_RPS (s : string) :
  str_in s "RPS" = true ->
  s ∈ [""; "R"; "P"; "S"; "RP"; "PS"; "RPS"].
Proof.
  assert (Hpre : forall t, String.prefix s t = true ->
                           s = String.substring 0 (String.length s) t).
  { intros t Ht. symmetry. by apply String.prefix_correct. }
  cbn [str_in]. rewrite !orb_true_iff. intros Hin.
  assert (Hlen : forall t, (String.length t <= 3)%nat ->
            s = String.substring 0 (String.length s) t ->
            exists n, (n <= 3)%nat /\ s = String.substring 0 n t).
  { intros t Ht Hs. destruct (decide (String.length s <= 3)%nat).
    - eauto.
    - exists 3%nat. split; [lia|]. rewrite Hs at 1.
      destruct t as [|a [|b [|c [|d t]]]]; cbn in Ht; try lia;
        destruct (String.length s) as [|[|[|[|k]]]]; try lia; reflexivity. }
  destruct Hin as [H|[H|[H|[H|H]]]]; try discriminate H;
    apply Hpre, Hlen in H; cbn; try lia;
    destruct H as (n & Hn & ->);
    destruct n as [|[|[|[|n]]]]; try lia; cbn; rewrite !elem_of_cons; auto 10.
Qed.

(** Every value get_opponent_move returns is one of the non-empty
    substrings of "RPS". *)
Lemma get_opponent_move_returns `{Float} {uc : Unicode} (io io' : console) (choice : string) :
  get_opponent_move io = (io', Ok choice) ->
  choice ∈ ["R"; "P"; "S"; "RP"; "PS"; "RPS"].
Proof.
  unfold get_opponent_move. generalize (stdout io).
  induction (stdin io) as [|line rest IH]; intros out; cbn [get_opponent_move_lines].
  - inversion 1.
  - destruct (str_in (str_upper line) "RPS") eqn:Hin; cbn [andb].
    + destruct (String.eqb_spec (str_upper line) "") as [He|He]; cbn [negb].
      * destruct (String.eqb_spec (str_upper line) "E"); [inversion 1|]. apply IH.
      * intros [= _ <-]. apply str_in_RPS in Hin.
        rewrite !elem_of_cons in Hin. rewrite !elem_of_cons. tauto.
    + destruct (String.eqb_spec (str_upper line) "E"); [inversion 1|]. apply IH.
Qed.

Example get_opponent_move_reprompts `{Float} {uc : Unicode} :
  get_opponent_move {| stdin := ["x"; ""; "r"; "p"]; stdout := [] |}
  = ({| stdin := ["p"]; stdout := [Reprompt; Reprompt] |}, Ok "R").
Proof. reflexivity. Qed.

Example get_opponent_move_exits `{Float} {uc : Unicode} :
  get_opponent_move {| stdin := ["e"; "r"]; stdout := [] |}
  = ({| stdin := ["r"]; stdout := [] |}, Raise SystemExit).
Proof. reflexivity. Qed.

(** Outside ASCII the answer is the one of the case tables: a lone long s
    is returned as S. *)
Example get_opponent_move_long_s `{Float} {uc : Unicode} :
  unicode_upper "ſ" = "S" ->
  get_opponent_move {| stdin := ["ſ"; "r"]; stdout := [] |}
  = ({| stdin := ["r"]; stdout := [] |}, Ok "S").
Proof.
  intros Hs. unfold get_opponent_move. cbn [stdin stdout get_opponent_move_lines].
  change (str_upper "ſ") with (unicode_upper "ſ"). by rewrite Hs.
Qed.

(** C5 (the code departs from it): on the two-character line "rp"
    get_opponent_move returns "RP", which is not a move; the same happens
    for "ps" and "rps". *)
Theorem get_opponent_move_returns_multichar `{Float} {uc : Unicode} :
  get_opponent_move {| stdin := ["rp"]; stdout := [] |}
    = ({| stdin := []; stdout := [] |}, Ok "RP") /\
  Move_of_string "RP" = None /\
  get_opponent_move {| stdin := ["ps"]; stdout := [] |}
    = ({| stdin := []; stdout := [] |}, Ok "PS") /\
  get_opponent_move {| stdin := ["rps"]; stdout := [] |}
    = ({| stdin := []; stdout := [] |}, Ok "RPS").
Proof. repeat split. Qed.

(** ** play_rps: the strategy collection *)

Lemma play_rps_setup_eq `{Float} :
  exists h st,
    play_rps_setup = Ok (h, st) /\
    strategies st = VNone /\
    BanditController.strategies (bandit st) = VNone /\
    BanditController.context_memory (bandit st) = ∅ /\
    history st = [] /\
    h !! base_strategies_loc = Some (ListObj [freq_loc; markov_loc; mirror_loc; fuzzy_loc]) /\
    h !! fuzzy_loc = Some (FuzzyVotingStrategyObj (VRef base_strategies_loc)).
Proof. eexists; eexists. repeat split. Qed.

(** C1 (the code departs from it): [strategies] is bound to the value of
    [base_strategies.append(fuzzy)], which is None; select_strategy then
    raises TypeError on [len(self.strategies)] in the first iteration, for
    every input and every random source, and so does the lookup
    [strategies[strat_idx]] for any index. *)
Theorem play_rps_first_round_raises `{Float} {uc : Unicode} :
  (exists h st,
      play_rps_setup = Ok (h, st) /\
      strategies st = VNone /\
      (forall history,
          BanditController.select_strategy h history (bandit st)
          = (bandit st, Raise TypeError)) /\
      (forall i, py_getitem h (strategies st) i = Raise TypeError)) /\
  (forall iterations depth g io,
      play_rps (S iterations) depth g io = Raise TypeError).
Proof.
  split.
  - eexists; eexists. repeat split.
  - reflexivity.
Qed.

(** ** The update loop and the ensemble *)

Lemma dict_full_inv (d : dict Move Z) :
  dict_full d -> exists r p s, d = [(Rock, r); (Paper, p); (Scissors, s)].
Proof.
  unfold dict_full.
  destruct d as [|[k1 r] [|[k2 p] [|[k3 s] [|? ?]]]]; cbn; intros [=]; subst.
  by exists r, p, s.
Qed.

Lemma dict_incr_full (d : dict Move Z) (m : Move) :
  dict_full d -> exists d', dict_incr m d = Ok d' /\ dict_full d'.
Proof.
  intros (r & p & s & ->)%dict_full_inv.
  destruct m; eexists; (split; [reflexivity|reflexivity]).
Qed.

Lemma FirstOrderMarkov_update_ok (self : FirstOrderMarkov.t) (my opp : Move) :
  (FirstOrderMarkov.transitions self).*1 = [Rock; Paper; Scissors] ->
  Forall dict_full (FirstOrderMarkov.transitions self).*2 ->
  exists self',
    FirstOrderMarkov.update self my opp = Ok self' /\
    (FirstOrderMarkov.transitions self').*1 = [Rock; Paper; Scissors] /\
    Forall dict_full (FirstOrderMarkov.transitions self').*2.
Proof.
  destruct self as [t l]. cbn [FirstOrderMarkov.transitions].
  intros Hk Hrows. unfold FirstOrderMarkov.update.
  cbn [FirstOrderMarkov.last FirstOrderMarkov.transitions].
  destruct l as [l|]; [|eexists; split; [reflexivity|by split]].
  destruct t as [|[k1 r1] [|[k2 r2] [|[k3 r3] [|? ?]]]]; cbn in Hk; try discriminate.
  injection Hk as -> -> ->.
  cbn in Hrows.
  apply Forall_cons in Hrows as [H1 Hrows].
  apply Forall_cons in Hrows as [H2 Hrows].
  apply Forall_cons in Hrows as [H3 _].
  destruct l.
  - destruct (dict_incr_full r1 opp H1) as (d' & Hd & Hf).
    change (dict_get _ Rock) with (Some r1). cbv beta iota. rewrite Hd.
    eexists; split; [reflexivity|]. split; [reflexivity|].
    cbn. repeat constructor; assumption.
  - destruct (dict_incr_full r2 opp H2) as (d' & Hd & Hf).
    change (dict_get _ Paper) with (Some r2). cbv beta iota. rewrite Hd.
    eexists; split; [reflexivity|]. split; [reflexivity|].
    cbn. repeat constructor; assumption.
  - destruct (dict_incr_full r3 opp H3) as (d' & Hd & Hf).
    change (dict_get _ Scissors) with (Some r3). cbv beta iota. rewrite Hd.
    eexists; split; [reflexivity|]. split; [reflexivity|].
    cbn. repeat constructor; assumption.
Qed.

Lemma heap_after_append_ok `{Float} :
  exists h st, play_rps_setup = Ok (h, st) /\ strategies st = VNone /\ heap_ok h.
Proof.
  eexists; eexists; split; [reflexivity|]. split; [reflexivity|].
  split; try reflexivity.
  - eexists; split; reflexivity.
  - eexists; split; [reflexivity|]. split; [reflexivity|].
    cbn. repeat constructor.
Qed.

(** In the store of [play_rps] the ensemble's member list contains the
    ensemble itself, so its update never completes: whatever the depth
    limit, the call ends in RecursionError. *)
Lemma fuzzy_update_recursion (depth : nat) (my opp : Move) :
  forall h, heap_ok h ->
    exists h', strategy_update depth fuzzy_loc my opp h = (h', Raise RecursionError) /\
               heap_ok h'.
Proof.
  induction depth as [|d IH]; intros h Hok.
  - exists h. by split.
  - cbn [strategy_update].
    rewrite (heap_ok_fuzzy h Hok). cbn [py_iter].
    rewrite (heap_ok_list h Hok).
    destruct d as [|d'].
    + exists h. by split.
    + cbn [for_each].
      (* frequency counter *)
      destruct (heap_ok_freq h Hok) as (fc & Hfc & Hfull).
      destruct (dict_incr_full _ opp Hfull) as (c' & Hc' & Hfull').
      assert (Hf : strategy_update (S d') freq_loc my opp h
                   = (<[freq_loc := FrequencyCounterObj {| FrequencyCounter.counts := c' |}]> h, Ok ())).
      { cbn [strategy_update]. rewrite Hfc. unfold FrequencyCounter.update.
        by rewrite Hc'. }
      rewrite Hf. clear Hf.
      set (h1 := <[freq_loc := _]> h).
      (* first-order Markov *)
      destruct (heap_ok_markov h Hok) as (mk & Hmk & Hkeys & Hrows).
      destruct (FirstOrderMarkov_update_ok mk my opp Hkeys Hrows)
        as (mk' & Hupd & Hkeys' & Hrows').
      assert (Hm : strategy_update (S d') markov_loc my opp h1
                   = (<[markov_loc := FirstOrderMarkovObj mk']> h1, Ok ())).
      { cbn [strategy_update]. unfold h1.
        rewrite lookup_insert_ne by done. by rewrite Hmk, Hupd. }
      rewrite Hm. clear Hm.
      set (h2 := <[markov_loc := _]> h1).
      (* mirror *)
      assert (Hmi : strategy_update (S d') mirror_loc my opp h2 = (h2, Ok ())).
      { cbn [strategy_update]. unfold h2, h1.
        rewrite !lookup_insert_ne by done. by rewrite (heap_ok_mirror h Hok). }
      rewrite Hmi. clear Hmi.
      (* the ensemble again *)
      assert (Hok2 : heap_ok h2).
      { unfold h2, h1. split.
        - eexists. rewrite lookup_insert_ne by done. rewrite lookup_insert_eq.
          split; [reflexivity|assumption].
        - eexists. rewrite lookup_insert_eq. split; [reflexivity|by split].
        - rewrite !lookup_insert_ne by done. apply Hok.
        - rewrite !lookup_insert_ne by done. apply Hok.
        - rewrite !lookup_insert_ne by done. apply Hok. }
      destruct (IH h2 Hok2) as (h' & Hrec & Hok').
      rewrite Hrec. by exists h'.
Qed.

(** On a collection that can be iterated (the four strategies, the ensemble
    holding the three base ones) one pass of the loop of lines 189-190
    advances each base strategy twice: once directly, once through the
    ensemble. *)
Lemma update_all_separate_members_twice :
  (update_all 10 (VRef base_strategies_loc) Paper Rock heap_separate_members).1
    !! freq_loc
  = Some (FrequencyCounterObj
            {| FrequencyCounter.counts := [(Rock, 2); (Paper, 0); (Scissors, 0)] |}).
Proof. reflexivity. Qed.

(** C2 (the code departs from it): in [play_rps] the loop of lines 189-190
    iterates over None and raises TypeError without advancing any
    predictor; and the ensemble's own update, whose member list contains the
    ensemble itself, ends in RecursionError at every depth limit. *)
Theorem play_rps_update_loop_raises `{Float} :
  exists h st,
    play_rps_setup = Ok (h, st) /\
    (forall depth my opp,
        update_all depth (strategies st) my opp h = (h, Raise TypeError)) /\
    (forall depth my opp,
        exists h', strategy_update depth fuzzy_loc my opp h = (h', Raise RecursionError)).
Proof.
  destruct heap_after_append_ok as (h & st & Hsetup & Hs & Hok).
  exists h, st. split; [assumption|]. split.
  - intros depth my opp. unfold update_all. by rewrite Hs.
  - intros depth my opp.
    destruct (fuzzy_update_recursion depth my opp h Hok) as (h' & Hrec & _).
    by exists h'.
Qed.

(** ** The round report *)

(** C3 (the code departs from it): the report says "AI wins!" and counts a
    win for the system whenever the reward is not 0, also when it is -1, and
    says "You win!" exactly on a tie; the printed ratio is that count over
    the rounds played. *)
Theorem round_report_winner `{Float} (my opp : Move) (st : locals) (io : console) :
  plays st <> 0 ->
  let tie := bool_decide (get_reward my opp = 0) in
  let wins := if tie then ai_wins st else ai_wins st + 1 in
  exists st',
    round_report my opp (get_reward my opp) st io
    = Ok (st', print (Report (Move_to_string opp) (Move_to_string my)
                        (if tie then "You win!" else "AI wins!")
                        (f_mul (f_div (f_of_int wins) (f_of_int (plays st)))
                               (f_of_int 100))) io) /\
    ai_wins st' = wins /\
    player_wins st' = (if tie then player_wins st + 1 else player_wins st) /\
    plays st' = plays st /\
    get_reward Rock Paper = -1 /\ get_reward Rock Rock = 0.
Proof.
  intros Hplays tie wins. unfold round_report.
  destruct (Z.eqb_spec (plays st) 0) as [|_]; [contradiction|].
  assert (Htie : (get_reward my opp =? 0) = tie).
  { unfold tie. destruct (Z.eqb_spec (get_reward my opp) 0).
    - by rewrite bool_decide_eq_true_2.
    - by rewrite bool_decide_eq_false_2. }
  rewrite Htie. subst wins.
  destruct tie; (eexists; split; [reflexivity|]; repeat split).
Qed.

(** ** The regime-shift detector *)

Lemma detector_round_inv `{Float} (st : locals) (opp : Move) :
  0 <= entropy_stable_rounds st <= 2 ->
  0 <= entropy_counter st <= Z.of_nat (length (raw_opponent_moves st)) ->
  let st' := detector_round st opp in
  0 <= entropy_stable_rounds st' <= 2 /\
  0 <= entropy_counter st' <= Z.of_nat (length (raw_opponent_moves st')) /\
  raw_opponent_moves st' = raw_opponent_moves st ++ [opp] /\
  strategies st' = strategies st.
Proof.
  intros Hs Hc. unfold detector_round, detector, entropy_evaluated, entropy_window.
  set (st1 := round_record_raw opp (round_begin st)).
  assert (Hc1 : entropy_counter st1 = entropy_counter st + 1) by reflexivity.
  assert (Hr1 : raw_opponent_moves st1 = raw_opponent_moves st ++ [opp]) by reflexivity.
  assert (Hs1 : stable_rounds_after st1 = 0 \/
                stable_rounds_after st1 = entropy_stable_rounds st + 1).
  { unfold stable_rounds_after. destruct (f_ltb _ _); auto. }
  assert (Hlen : Z.of_nat (length (raw_opponent_moves st ++ [opp]))
                 = Z.of_nat (length (raw_opponent_moves st)) + 1).
  { rewrite length_app. cbn. lia. }
  assert (Hs0 : entropy_stable_rounds st1 = entropy_stable_rounds st) by reflexivity.
  assert (Hv1 : strategies st1 = strategies st) by reflexivity.
  destruct (Z.leb_spec 10 (entropy_counter st1)) as [Hge|Hlt].
  - destruct (Z.leb_spec 3 (stable_rounds_after st1)) as [H3|H3];
      cbn [entropy_stable_rounds entropy_counter raw_opponent_moves strategies].
    + pose proof (Z.mod_pos_bound (entropy_counter st1) 10 ltac:(lia)).
      rewrite Hr1, Hlen. split; [lia|]. split; [lia|]. by split.
    + rewrite Hr1, Hlen, Hc1. split; [lia|]. split; [lia|]. by split.
  - rewrite Hr1, Hlen, Hc1, Hs0. split; [lia|]. split; [lia|]. by split.
Qed.

Lemma detector_rounds_inv `{Float} (v : value) (moves : list Move) :
  let st := detector_rounds (initial_locals v) moves in
  0 <= entropy_stable_rounds st <= 2 /\
  0 <= entropy_counter st <= Z.of_nat (length (raw_opponent_moves st)) /\
  raw_opponent_moves st = moves /\
  strategies st = v.
Proof.
  induction moves as [|opp moves IH] using rev_ind.
  - cbn. split; [lia|]. split; [lia|]. by split.
  - cbn zeta in *. unfold detector_rounds in *. rewrite foldl_app. cbn [foldl].
    destruct IH as (Hs & Hc & Hr & Hv).
    destruct (detector_round_inv _ opp Hs Hc) as (Hs' & Hc' & Hr' & Hv').
    rewrite Hr', Hv', Hr, Hv. rewrite Hr', Hr in Hc'. auto.
Qed.



(** With three high-entropy evaluations in a row (iterations 10, 11 and 12)
    the shift is signalled in iteration 12 and the running counter 12 is
    folded to 2. *)
Example detector_shift_in_round_12 :
  regime_shift locals_before_shift = true /\
  plays locals_before_shift = 12 /\
  entropy_counter locals_before_shift = 12 /\
  entropy_counter (detector locals_before_shift) = 2 /\
  entropy_stable_rounds (detector locals_before_shift) = 0.
Proof. vm_compute. repeat split. Qed.

(** ** The bandit controller *)

Section controller.
Context `{fl : Float}.
Implicit Types (stats : ContextStats) (c : BanditController.t).

Lemma fresh_stats_lookup (n i : nat) :
  BanditController.fresh_stats n !! i
  = if decide (i < n)%nat then Some (f_zero, 1) else None.
Proof.
  unfold BanditController.fresh_stats.
  assert (Hfst : ((fun i : nat => (i, (f_zero, 1))) <$> seq 0 n).*1 = seq 0 n).
  { induction (seq 0 n) as [|x l IH]; cbn; congruence. }
  destruct (decide (i < n)%nat) as [Hlt|Hge].
  - apply elem_of_list_to_map_1.
    + rewrite Hfst. apply NoDup_seq.
    + apply list_elem_of_fmap. exists i. split; [done|].
      apply elem_of_seq. lia.
  - apply not_elem_of_list_to_map_1. rewrite Hfst, elem_of_seq. lia.
Qed.

Lemma fresh_stats_ok (n : nat) : stats_ok n (BanditController.fresh_stats n).
Proof.
  split.
  - intros i. rewrite fresh_stats_lookup.
    destruct (decide (i < n)%nat); split; intros; try done; try lia.
  - intros i rc. rewrite fresh_stats_lookup.
    destruct (decide (i < n)%nat); intros [= <-]. cbn. lia.
Qed.

Lemma sum_pulls_ext (n : nat) stats1 stats2 :
  (forall i, (i < n)%nat -> stats1 !! i = stats2 !! i) ->
  sum_pulls n stats1 = sum_pulls n stats2.
Proof.
  induction n as [|n IH]; intros Heq; [done|].
  cbn [sum_pulls]. unfold pull_count. rewrite (Heq n) by lia.
  rewrite IH; [done|]. intros i Hi. apply Heq. lia.
Qed.

Lemma total_pulls_sum (n : nat) : forall stats,
  (forall i, is_Some (stats !! i) <-> (i < n)%nat) ->
  BanditController.total_pulls stats = sum_pulls n stats.
Proof.
  unfold BanditController.total_pulls.
  induction n as [|n IH]; intros stats Hdom.
  - assert (stats = ∅) as ->.
    { apply map_empty. intros i. apply eq_None_not_Some. rewrite Hdom. lia. }
    by rewrite map_fold_empty.
  - destruct (proj2 (Hdom n) ltac:(lia)) as [x Hx].
    rewrite (map_fold_delete_L _ _ n x stats); [|intros; lia|done].
    rewrite (IH (delete n stats)).
    + assert (Hn : pull_count stats n = x.2).
      { unfold pull_count. by rewrite Hx. }
      cbn [sum_pulls]. rewrite Hn.
      rewrite (sum_pulls_ext n (delete n stats) stats); [lia|].
      intros i Hi. apply lookup_delete_ne. lia.
    + intros i. destruct (decide (i = n)) as [->|Hne].
      * rewrite lookup_delete_eq. split; [by intros []|lia].
      * rewrite lookup_delete_ne by done. rewrite Hdom. lia.
Qed.

Lemma sum_pulls_ge (n : nat) stats :
  stats_ok n stats -> Z.of_nat n <= sum_pulls n stats.
Proof.
  intros [Hdom Hcnt].
  assert (Hall : forall k, (k <= n)%nat -> Z.of_nat k <= sum_pulls k stats).
  { induction k as [|k IH]; intros Hk; [done|].
    cbn [sum_pulls]. unfold pull_count.
    destruct (proj2 (Hdom k) ltac:(lia)) as [x Hx]. rewrite Hx.
    pose proof (Hcnt k x Hx). specialize (IH ltac:(lia)). lia. }
  by apply Hall.
Qed.

Lemma total_pulls_ge (n : nat) stats :
  stats_ok n stats -> Z.of_nat n <= BanditController.total_pulls stats.
Proof.
  intros Hok. rewrite (total_pulls_sum n) by apply Hok. by apply sum_pulls_ge.
Qed.

Lemma new_ok (n : nat) (v : value) : controller_ok n v (BanditController.new v).
Proof. split; [done|]. intros ctx stats. cbn. by rewrite lookup_empty. Qed.

(** The lazy initialisation: a known context is left alone, an unknown
    one receives [(0.0, 1)] for every index. *)
Lemma ensure_context_ok (h : heap) (v : value) (n : nat) (ctx : Context) c :
  py_len h v = Ok n ->
  controller_ok n v c ->
  exists c' stats,
    BanditController.ensure_context h ctx c = (c', Ok ()) /\
    controller_ok n v c' /\
    BanditController.context_memory c' !! ctx = Some stats /\
    stats_ok n stats /\
    match BanditController.context_memory c !! ctx with
    | Some known => c' = c /\ stats = known
    | None =>
        BanditController.context_memory c'
        = <[ctx := BanditController.fresh_stats n]> (BanditController.context_memory c) /\
        stats = BanditController.fresh_stats n
    end.
Proof.
  intros Hlen [Hv Hok]. unfold BanditController.ensure_context.
  destruct (BanditController.context_memory c !! ctx) as [known|] eqn:Hctx.
  - exists c, known. split; [done|]. split; [by split|]. split; [done|].
    split; [by apply (Hok ctx)|done].
  - rewrite Hv, Hlen. eexists; eexists. split; [reflexivity|].
    cbn [BanditController.context_memory BanditController.strategies].
    rewrite lookup_insert_eq. split; [|split; [done|split; [apply fresh_stats_ok|done]]].
    split; [done|]. intros ctx' stats'.
    cbn [BanditController.context_memory].
    destruct (decide (ctx = ctx')) as [<-|Hne].
    + rewrite lookup_insert_eq. intros [= <-]. apply fresh_stats_ok.
    + rewrite lookup_insert_ne by done. apply Hok.
Qed.

Lemma select_strategy_state (h : heap) (history : list RoundRecord) c :
  (BanditController.select_strategy h history c).1
  = (BanditController.ensure_context h (BanditController._context_key history) c).1.
Proof.
  unfold BanditController.select_strategy.
  by destruct (BanditController.ensure_context _ _ _) as [c' [[]|e]].
Qed.

Lemma select_strategy_ok (h : heap) (v : value) (n : nat)
    (history : list RoundRecord) c :
  py_len h v = Ok n ->
  controller_ok n v c ->
  controller_ok n v (BanditController.select_strategy h history c).1.
Proof.
  intros Hlen Hok. rewrite select_strategy_state.
  destruct (ensure_context_ok h v n (BanditController._context_key history) c Hlen Hok)
    as (c' & stats & -> & Hok' & _). done.
Qed.

Lemma stats_ok_insert (n index : nat) stats (r r' : F) (k : Z) :
  stats_ok n stats ->
  stats !! index = Some (r, k) ->
  stats_ok n (<[index := (r', k + 1)]> stats).
Proof.
  intros [Hdom Hcnt] Hidx. split.
  - intros i. destruct (decide (index = i)) as [<-|Hne].
    + rewrite lookup_insert_eq. rewrite <- Hdom, Hidx. split; eauto.
    + rewrite lookup_insert_ne by done. apply Hdom.
  - intros i rc. destruct (decide (index = i)) as [<-|Hne].
    + rewrite lookup_insert_eq. intros [= <-]. cbn.
      pose proof (Hcnt _ _ Hidx). cbn in *. lia.
    + rewrite lookup_insert_ne by done. apply Hcnt.
Qed.

(** What [update] does once the context is resolved. *)
Lemma update_effect (h : heap) (v : value) (n : nat)
    (history : list RoundRecord) (index : nat) (reward : Z) c :
  py_len h v = Ok n ->
  controller_ok n v c ->
  let ctx := BanditController._context_key history in
  let c1 := (BanditController.select_strategy h history c).1 in
  exists stats,
    BanditController.context_memory c1 !! ctx = Some stats /\
    stats_ok n stats /\
    match stats !! index with
    | None =>
        BanditController.update h history index reward c = (c1, Raise KeyError)
    | Some (r, k) =>
        exists c2,
          BanditController.update h history index reward c = (c2, Ok ()) /\
          BanditController.strategies c2 = v /\
          BanditController.context_memory c2
          = <[ctx := <[index := (f_add r (f_of_int reward), k + 1)]> stats]>
              (BanditController.context_memory c1)
    end.
Proof.
  intros Hlen Hok ctx c1. unfold c1. rewrite select_strategy_state.
  unfold BanditController.update. fold ctx.
  destruct (ensure_context_ok h v n ctx c Hlen Hok)
    as (c' & stats & -> & [Hv' Hok'] & Hctx & Hstats & _).
  cbn [fst]. exists stats. split; [done|]. split; [done|].
  rewrite Hctx. destruct (stats !! index) as [[r k]|]; [|done].
  eexists. split; [reflexivity|]. by split.
Qed.

Lemma update_ok (h : heap) (v : value) (n : nat)
    (history : list RoundRecord) (index : nat) (reward : Z) c :
  py_len h v = Ok n ->
  controller_ok n v c ->
  controller_ok n v (BanditController.update h history index reward c).1.
Proof.
  intros Hlen Hok.
  pose proof (select_strategy_ok h v n history c Hlen Hok) as Hok1.
  destruct (update_effect h v n history index reward c Hlen Hok)
    as (stats & Hctx & Hstats & Hupd).
  destruct (stats !! index) as [[r k]|] eqn:Hidx.
  - destruct Hupd as (c2 & -> & Hv2 & Hmem). cbn [fst].
    split; [done|]. intros ctx' stats'. rewrite Hmem.
    destruct (decide (BanditController._context_key history = ctx')) as [<-|Hne].
    + rewrite lookup_insert_eq. intros [= <-]. by eapply stats_ok_insert.
    + rewrite lookup_insert_ne by done. apply Hok1.
  - by rewrite Hupd.
Qed.

Lemma reachable_ok (h : heap) (v : value) (n : nat) c :
  py_len h v = Ok n -> reachable h v c -> controller_ok n v c.
Proof.
  intros Hlen. induction 1.
  - apply new_ok.
  - by apply select_strategy_ok.
  - by apply update_ok.
Qed.

Lemma mapM_Ok {A B} (f : A -> result B) (g : A -> B) (l : list A) :
  (forall x, x ∈ l -> f x = Ok (g x)) -> mapM f l = Ok (g <$> l).
Proof.
  induction l as [|x l IH]; intros Hf; [done|].
  cbn. rewrite (Hf x) by apply list_elem_of_here. cbn.
  rewrite IH; [done|]. intros y Hy. apply Hf. by apply list_elem_of_further.
Qed.

Lemma ucb_score_spec (n : nat) stats (total : Z) (i : nat) :
  stats_ok n stats -> (i < n)%nat -> 0 < total ->
  BanditController.ucb_score stats total i = Ok (ucb1_spec stats total i).
Proof.
  intros [Hdom Hcnt] Hi Htotal. unfold BanditController.ucb_score, ucb1_spec.
  destruct (proj2 (Hdom i) Hi) as [[r k] Hrk]. rewrite Hrk.
  pose proof (Hcnt _ _ Hrk) as Hk. cbn in Hk.
  destruct (Z.eqb_spec k 0); [lia|].
  destruct (Z.leb_spec total 0); [lia|]. done.
Qed.

(** The value [select_strategy] returns, once the context is resolved. *)
Lemma select_strategy_result (h : heap) (v : value) (n : nat)
    (history : list RoundRecord) c :
  py_len h v = Ok n ->
  controller_ok n v c ->
  exists c1 stats,
    BanditController.context_memory c1 !! BanditController._context_key history
      = Some stats /\
    stats_ok n stats /\
    match BanditController.context_memory c !! BanditController._context_key history with
    | Some known => stats = known
    | None => stats = BanditController.fresh_stats n
    end /\
    let scores := ucb1_spec stats (BanditController.total_pulls stats) <$> seq 0 n in
    BanditController.select_strategy h history c
    = (c1, best ← BanditController.f_max scores; BanditController.f_index best scores).
Proof.
  intros Hlen Hok. unfold BanditController.select_strategy.
  destruct (ensure_context_ok h v n (BanditController._context_key history) c Hlen Hok)
    as (c1 & stats & -> & [Hv1 Hok1] & Hctx & Hstats & Hres).
  exists c1, stats. split; [done|]. split; [done|]. split.
  { destruct (BanditController.context_memory c !! _); tauto. }
  cbn zeta. rewrite Hctx, Hv1, Hlen. cbn [mbind result_bind].
  destruct n as [|n]; [done|].
  rewrite (mapM_Ok _ (ucb1_spec stats (BanditController.total_pulls stats))); [done|].
  intros i Hi%elem_of_seq. apply (ucb_score_spec (S n)); [done|lia|].
  pose proof (total_pulls_ge (S n) stats Hstats). lia.
Qed.

End controller.

Section ordered.
Context `{fl : Float} {fo : FloatOrder fl}.

Lemma f_eqb_refl (x : F) : f_eqb x x = true.
Proof. apply f_eqb_spec. split; apply f_ltb_irrefl. Qed.

Lemma f_max_from_spec (l : list F) : forall b,
  BanditController.f_max_from b l ∈ b :: l /\
  forall w, w ∈ b :: l -> f_ltb (BanditController.f_max_from b l) w = false.
Proof.
  induction l as [|x l IH]; intros b; cbn [BanditController.f_max_from].
  - split; [apply list_elem_of_here|].
    intros w ->%list_elem_of_singleton. apply f_ltb_irrefl.
  - destruct (f_ltb b x) eqn:Hbx.
    + destruct (IH x) as [Hin Hmax]. split; [by apply list_elem_of_further|].
      intros w [->|Hw]%elem_of_cons; [|by apply Hmax].
      destruct (f_ltb (BanditController.f_max_from x l) b) eqn:Hmb; [|done].
      rewrite <- (Hmax x (list_elem_of_here _ _)).
      symmetry. by eapply f_ltb_trans.
    + destruct (IH b) as [Hin Hmax]. split.
      { apply elem_of_cons in Hin as [->|Hin]; [apply list_elem_of_here|].
        by do 2 apply list_elem_of_further. }
      intros w [->|[->|Hw]%elem_of_cons]%elem_of_cons.
      * apply Hmax, list_elem_of_here.
      * destruct (f_ltb (BanditController.f_max_from b l) x) eqn:Hmw; [|done].
        destruct (f_ltb_cotrans _ _ b Hmw) as [Hc|Hc].
        -- by rewrite (Hmax b (list_elem_of_here _ _)) in Hc.
        -- by rewrite Hbx in Hc.
      * by apply Hmax, list_elem_of_further.
Qed.

Lemma f_index_spec (v : F) (l : list F) :
  v ∈ l ->
  exists i x,
    BanditController.f_index v l = Ok i /\
    l !! i = Some x /\
    f_eqb x v = true /\
    forall j w, (j < i)%nat -> l !! j = Some w -> f_eqb w v = false.
Proof.
  induction l as [|a l IH]; intros Hin; [by apply elem_of_nil in Hin|].
  cbn [BanditController.f_index]. destruct (f_eqb a v) eqn:Hav.
  - exists 0%nat, a. repeat split; try done. intros j w Hj. lia.
  - apply elem_of_cons in Hin as [->|Hin]; [by rewrite f_eqb_refl in Hav|].
    destruct (IH Hin) as (i & x & Hidx & Hx & Hxv & Hbefore).
    exists (S i), x. rewrite Hidx. repeat split; try done.
    intros [|j] w Hj; cbn.
    + by intros [= <-].
    + apply Hbefore. lia.
Qed.

(** [scores.index(max(scores))] is the lowest index of a maximal score. *)
Lemma f_index_max (score : nat -> F) (n : nat) :
  (0 < n)%nat ->
  let scores := score <$> seq 0 n in
  exists i,
    (best ← BanditController.f_max scores; BanditController.f_index best scores) = Ok i /\
    (i < n)%nat /\
    (forall j, (j < n)%nat -> f_ltb (score i) (score j) = false) /\
    (forall j, (j < i)%nat -> f_ltb (score j) (score i) = true).
Proof.
  intros Hn scores.
  assert (Hlookup : forall j w, scores !! j = Some w <-> (j < n)%nat /\ w = score j).
  { intros j w. unfold scores. rewrite list_lookup_fmap.
    destruct (decide (j < n)%nat) as [Hj|Hj].
    - rewrite lookup_seq_lt by done. cbn. split; [by intros [= <-]|by intros [_ ->]].
    - rewrite lookup_seq_ge by lia. cbn. split; [done|]. intros [? _]. lia. }
  destruct scores as [|b l] eqn:Hscores.
  { destruct n; [lia|]. unfold scores in Hscores. discriminate. }
  cbn [BanditController.f_max mbind result_bind].
  destruct (f_max_from_spec l b) as [Hin Hmax].
  set (best := BanditController.f_max_from b l) in *.
  destruct (f_index_spec best (b :: l) Hin) as (i & x & -> & Hx & Hxb & Hbefore).
  apply Hlookup in Hx as [Hi ->].
  apply f_eqb_spec in Hxb as [Hxb1 Hxb2].
  exists i. split; [done|]. split; [done|]. split.
  - intros j Hj.
    destruct (f_ltb (score i) (score j)) eqn:Hij; [|done].
    destruct (f_ltb_cotrans _ _ best Hij) as [Hc|Hc].
    + by rewrite Hxb1 in Hc.
    + rewrite Hmax in Hc; [done|].
      apply list_elem_of_lookup. exists j. apply Hlookup. split; [done|reflexivity].
  - intros j Hj.
    assert (Hsj : (b :: l) !! j = Some (score j)).
    { apply Hlookup. split; [lia|done]. }
    pose proof (Hbefore j _ Hj Hsj) as Hne.
    assert (Hjb : f_ltb (score j) best = true).
    { destruct (f_ltb (score j) best) eqn:Hjb; [done|].
      rewrite <- Hne. apply f_eqb_spec. split; [done|].
      apply Hmax. apply list_elem_of_lookup. by exists j. }
    destruct (f_ltb_cotrans _ _ (score i) Hjb) as [Hc|Hc]; [done|].
    by rewrite Hxb1 in Hc.
Qed.

End ordered.

Lemma f_index_raises `{Float} (v : F) (l : list F) (e : exn) :
  BanditController.f_index v l = Raise e -> e = ValueError.
Proof.
  induction l as [|x l IH]; cbn [BanditController.f_index]; [by intros [= <-]|].
  destruct (f_eqb x v); [done|].
  destruct (BanditController.f_index v l); cbn; [done|]. intros [= <-]. by apply IH.
Qed.

(** C6: on a controller over n >= 1 predictors select_strategy resolves the
    context, scores every index i by
    reward_i / pulls_i + 2 * sqrt(ln(total) / pulls_i), total being the sum
    of the pull counts of that context, and returns the lowest index whose
    score is maximal. *)
Theorem select_strategy_ucb1 `{fl : Float} {fo : FloatOrder fl} (h : heap) (v : value)
    (n : nat) (history : list RoundRecord) (c : BanditController.t) :
  py_len h v = Ok n ->
  (0 < n)%nat ->
  reachable h v c ->
  exists c1 stats i,
    BanditController.select_strategy h history c = (c1, Ok i) /\
    BanditController.context_memory c1 !! BanditController._context_key history
      = Some stats /\
    match BanditController.context_memory c !! BanditController._context_key history with
    | Some known => stats = known
    | None => stats = BanditController.fresh_stats n
    end /\
    BanditController.total_pulls stats = sum_pulls n stats /\
    (i < n)%nat /\
    let score := ucb1_spec stats (sum_pulls n stats) in
    (forall j, (j < n)%nat -> f_ltb (score i) (score j) = false) /\
    (forall j, (j < i)%nat -> f_ltb (score j) (score i) = true).
Proof.
  intros Hlen Hn Hreach.
  pose proof (reachable_ok h v n c Hlen Hreach) as Hok.
  destruct (select_strategy_result h v n history c Hlen Hok)
    as (c1 & stats & Hctx & Hstats & Hres & Hsel).
  cbn zeta in Hsel.
  pose proof (total_pulls_sum n stats (proj1 Hstats)) as Htotal.
  destruct (f_index_max (ucb1_spec stats (BanditController.total_pulls stats)) n Hn)
    as (i & Hidx & Hi & Hmax & Hfirst).
  exists c1, stats, i. rewrite Hsel, Hidx. rewrite <- Htotal. by repeat split.
Qed.

Lemma select_strategy_ucb1_witness :
  py_len heap_separate_members four_strategies = Ok 4%nat /\
  exists c1 stats i,
    BanditController.select_strategy (H := MilliFloat) heap_separate_members []
      (BanditController.new four_strategies) = (c1, Ok i) /\
    BanditController.context_memory c1 !! BanditController._context_key []
      = Some stats /\
    match BanditController.context_memory (BanditController.new four_strategies)
            !! BanditController._context_key [] with
    | Some known => stats = known
    | None => stats = BanditController.fresh_stats 4
    end /\
    BanditController.total_pulls stats = sum_pulls 4 stats /\
    (i < 4)%nat /\
    let score := ucb1_spec stats (sum_pulls 4 stats) in
    (forall j, (j < 4)%nat -> f_ltb (score i) (score j) = false) /\
    (forall j, (j < i)%nat -> f_ltb (score j) (score i) = true).
Proof.
  split; [reflexivity|].
  apply (select_strategy_ucb1 (fo := MilliFloat_order) heap_separate_members
           four_strategies 4 [] (BanditController.new four_strategies)).
  - reflexivity.
  - lia.
  - constructor.
Defined.

(** C7: in every reachable state of a controller over n predictors each
    initialised context holds exactly the indices below n, every pull count
    is at least 1 and the total of a context is at least n, so that for
    n >= 2 the logarithm of the total is positive; no call of
    select_strategy or update raises ZeroDivisionError or a math domain
    error; select_strategy initialises an unknown context to (0.0, 1) and
    update raises one pull count by 1, both keeping these facts. *)
Theorem controller_pull_counts `{fl : Float} (h : heap) (v : value) (n : nat)
    (c : BanditController.t) :
  py_len h v = Ok n ->
  reachable h v c ->
  (forall context stats,
      BanditController.context_memory c !! context = Some stats ->
      (forall i, is_Some (stats !! i) <-> (i < n)%nat) /\
      (forall i r k, stats !! i = Some (r, k) -> 1 <= k) /\
      BanditController.total_pulls stats = sum_pulls n stats /\
      Z.of_nat n <= BanditController.total_pulls stats /\
      ((2 <= n)%nat -> (0 < ln (IZR (BanditController.total_pulls stats)))%R)) /\
  (forall history,
      let out := BanditController.select_strategy h history c in
      out.2 <> Raise ZeroDivisionError /\
      out.2 <> Raise ValueError_math_domain /\
      controller_ok n v out.1 /\
      (BanditController.context_memory c !! BanditController._context_key history = None ->
       exists stats,
         BanditController.context_memory out.1 !! BanditController._context_key history
           = Some stats /\
         forall i, (i < n)%nat -> stats !! i = Some (f_zero, 1))) /\
  (forall history index reward,
      let before := (BanditController.select_strategy h history c).1 in
      let out := BanditController.update h history index reward c in
      out.2 <> Raise ZeroDivisionError /\
      out.2 <> Raise ValueError_math_domain /\
      controller_ok n v out.1 /\
      ((index < n)%nat ->
       exists stats stats',
         BanditController.context_memory before !! BanditController._context_key history
           = Some stats /\
         out.2 = Ok () /\
         BanditController.context_memory out.1 !! BanditController._context_key history
           = Some stats' /\
         pull_count stats' index = pull_count stats index + 1 /\
         forall j, j <> index -> stats' !! j = stats !! j)).
Proof.
  intros Hlen Hreach.
  pose proof (reachable_ok h v n c Hlen Hreach) as Hok.
  split; [|split].
  - intros context stats Hctx.
    destruct Hok as [_ Hok]. specialize (Hok context stats Hctx).
    pose proof (total_pulls_ge n stats Hok) as Hge.
    destruct Hok as [Hdom Hcnt].
    split; [done|]. split; [intros i r k Hi; apply (Hcnt i (r, k) Hi)|].
    split; [by apply total_pulls_sum|]. split; [done|].
    intros Hn. rewrite <- ln_1. apply ln_increasing; [apply Rlt_0_1|].
    apply IZR_lt. lia.
  - intros history out. unfold out.
    destruct (select_strategy_result h v n history c Hlen Hok)
      as (c1 & stats & Hctx & Hstats & Hres & Hsel).
    cbn zeta in Hsel. rewrite Hsel. cbn [fst snd].
    assert (Hraise : forall e,
               (best ← BanditController.f_max
                         (ucb1_spec stats (BanditController.total_pulls stats) <$> seq 0 n);
                BanditController.f_index best
                  (ucb1_spec stats (BanditController.total_pulls stats) <$> seq 0 n))
               = Raise e -> e = ValueError).
    { intros e. destruct (_ <$> seq 0 n) as [|b l];
        cbn [BanditController.f_max mbind result_bind]; [by intros [= <-]|].
      apply f_index_raises. }
    split; [intros He; by apply Hraise in He|].
    split; [intros He; by apply Hraise in He|].
    split.
    { pose proof (select_strategy_ok h v n history c Hlen Hok) as Hok1.
      by rewrite Hsel in Hok1. }
    intros Hnone. rewrite Hnone in Hres. subst stats.
    eexists. split; [done|]. intros i Hi. rewrite fresh_stats_lookup.
    by destruct (decide (i < n)%nat).
  - intros history index reward before out. unfold before, out.
    destruct (update_effect h v n history index reward c Hlen Hok)
      as (stats & Hctx & Hstats & Hupd).
    pose proof (update_ok h v n history index reward c Hlen Hok) as Hok2.
    destruct (stats !! index) as [[r k]|] eqn:Hidx.
    + destruct Hupd as (c2 & Hupd & Hv2 & Hmem). rewrite Hupd in Hok2 |- *.
      cbn [fst snd]. split; [done|]. split; [done|]. split; [done|].
      intros _. exists stats, (<[index := (f_add r (f_of_int reward), k + 1)]> stats).
      split; [done|]. split; [done|]. rewrite Hmem, lookup_insert_eq.
      split; [done|]. split.
      * unfold pull_count. by rewrite lookup_insert_eq, Hidx.
      * intros j Hj. by rewrite lookup_insert_ne.
    + rewrite Hupd in Hok2 |- *. cbn [fst snd].
      split; [done|]. split; [done|]. split; [done|].
      intros Hi. apply (proj1 Hstats) in Hi as [? Hi]. congruence.
Qed.

Lemma controller_pull_counts_witness :
  let h := heap_separate_members in
  let c := (BanditController.update (H := MilliFloat) h [] 1 1
              (BanditController.new four_strategies)).1 in
  py_len h four_strategies = Ok 4%nat /\
  forall context stats,
    BanditController.context_memory c !! context = Some stats ->
    (forall i, is_Some (stats !! i) <-> (i < 4)%nat) /\
    (forall i r k, stats !! i = Some (r, k) -> 1 <= k) /\
    BanditController.total_pulls stats = sum_pulls 4 stats /\
    Z.of_nat 4 <= BanditController.total_pulls stats /\
    ((2 <= 4)%nat -> (0 < ln (IZR (BanditController.total_pulls stats)))%R).
Proof.
  intros h c. split; [reflexivity|].
  apply (controller_pull_counts (fl := MilliFloat) h four_strategies 4 c).
  - reflexivity.
  - unfold c. apply reachable_update. apply reachable_new.
Defined.

(** C8: whatever the controller has learned, a regime shift binds [bandit]
    to a new controller over the same strategies; the new controller knows
    no context at all; the first select_strategy or update on it, for any
    history, leaves exactly one context behind, whose statistics are
    (0.0, 1) for every index of the collection (the updated index then
    holding its reward and 2 pulls); and where the strategies have no
    length (None) no statistics are created: the call raises and the
    controller stays empty. *)
Theorem regime_shift_resets_controller `{fl : Float} (st1 : locals) :
  regime_shift st1 = true ->
  let fresh := bandit (detector st1) in
  fresh = BanditController.new (strategies st1) /\
  (forall context, BanditController.context_memory fresh !! context = None) /\
  (forall (h : heap) (history : list RoundRecord),
      let out := BanditController.select_strategy h history fresh in
      match py_len h (strategies st1) with
      | Ok n =>
          BanditController.context_memory out.1
          = {[ BanditController._context_key history := BanditController.fresh_stats n ]}
      | Raise e => out = (fresh, Raise e)
      end) /\
  (forall (h : heap) (history : list RoundRecord) (index : nat) (reward : Z),
      let out := BanditController.update h history index reward fresh in
      match py_len h (strategies st1) with
      | Ok n =>
          BanditController.context_memory out.1
          = {[ BanditController._context_key history :=
                 if decide (index < n)%nat
                 then <[index := (f_add f_zero (f_of_int reward), 2)]>
                        (BanditController.fresh_stats n)
                 else BanditController.fresh_stats n ]}
      | Raise e => out = (fresh, Raise e)
      end) /\
  (forall n i, BanditController.fresh_stats n !! i
               = if decide (i < n)%nat then Some (f_zero, 1) else None).
Proof.
  intros Hshift fresh.
  assert (Hfresh : fresh = BanditController.new (strategies st1)).
  { unfold fresh, detector. unfold regime_shift in Hshift.
    apply andb_true_iff in Hshift as [-> ->]. reflexivity. }
  rewrite Hfresh. split; [done|]. split; [intros context; apply lookup_empty|].
  split; [|split; [|intros n i; apply fresh_stats_lookup]].
  - intros h history.
    unfold BanditController.select_strategy, BanditController.ensure_context.
    cbn [BanditController.new BanditController.context_memory BanditController.strategies].
    rewrite lookup_empty.
    destruct (py_len h (strategies st1)) as [n|e]; [|done].
    cbn [fst BanditController.context_memory]. apply insert_empty.
  - intros h history index reward.
    unfold BanditController.update, BanditController.ensure_context.
    cbn [BanditController.new BanditController.context_memory BanditController.strategies].
    rewrite lookup_empty.
    destruct (py_len h (strategies st1)) as [n|e]; [|done].
    cbn [BanditController.context_memory BanditController.strategies].
    rewrite lookup_insert_eq, fresh_stats_lookup.
    destruct (decide (index < n)%nat); cbn [fst BanditController.context_memory].
    + rewrite insert_insert_eq. apply insert_empty.
    + apply insert_empty.
Qed.

Lemma regime_shift_resets_controller_witness :
  let st1 := locals_learned_before_shift in
  let h := heap_separate_members in
  regime_shift st1 = true /\
  is_Some (BanditController.context_memory (bandit st1) !! BanditController._context_key []) /\
  is_Some (BanditController.context_memory (bandit st1)
             !! BanditController._context_key [(Rock, Paper)]) /\
  bandit (detector st1) = BanditController.new (strategies st1) /\
  (forall context,
      BanditController.context_memory (bandit (detector st1)) !! context = None) /\
  py_len h (strategies st1) = Ok 4%nat /\
  (forall history,
      match py_len h (strategies st1) with
      | Ok n =>
          BanditController.context_memory
            (BanditController.select_strategy h history (bandit (detector st1))).1
          = {[ BanditController._context_key history := BanditController.fresh_stats n ]}
      | Raise e =>
          BanditController.select_strategy h history (bandit (detector st1))
          = (bandit (detector st1), Raise e)
      end).
Proof.
  intros st1 h.
  assert (Hshift : regime_shift st1 = true) by (vm_compute; reflexivity).
  destruct (regime_shift_resets_controller (fl := MilliFloat) st1 Hshift)
    as (Hnew & Hempty & Hsel & _).
  split; [exact Hshift|].
  split; [eexists; vm_compute; reflexivity|].
  split; [eexists; vm_compute; reflexivity|].
  split; [exact Hnew|]. split; [exact Hempty|].
  split; [vm_compute; reflexivity|].
  intros history. exact (Hsel h history).
Defined.

(** In the state [play_rps] sets up the strategies are None: a controller
    installed by a shift there creates no statistics, its first call
    raises TypeError. *)
Lemma regime_shift_over_None `{fl : Float} (st1 : locals) (h : heap)
    (history : list RoundRecord) :
  regime_shift st1 = true ->
  strategies st1 = VNone ->
  BanditController.select_strategy h history (bandit (detector st1))
  = (BanditController.new VNone, Raise TypeError).
Proof.
  intros Hshift Hnone.
  assert (Hfresh : bandit (detector st1) = BanditController.new VNone).
  { unfold detector. unfold regime_shift in Hshift.
    apply andb_true_iff in Hshift as [-> ->]. cbn. by rewrite Hnone. }
  by rewrite Hfresh.
Qed.

Lemma round_report_winner_witness :
  let st := round_begin (initial_locals (H := MilliFloat) four_strategies) in
  let io := {| stdin := []; stdout := [] |} in
  plays st <> 0 /\
  exists st',
    round_report Rock Paper (get_reward Rock Paper) st io
    = Ok (st', print (Report "P" "R" "AI wins!" (f_mul (f_div (f_of_int 1) (f_of_int 1))
                                                    (f_of_int 100))) io) /\
    ai_wins st' = 1 /\
    player_wins st' = 0.
Proof.
  intros st io. split; [discriminate|].
  destruct (round_report_winner (H := MilliFloat) Rock Paper st io) as (st' & Hr & Ha & Hp & _).
  - discriminate.
  - exists st'. split; [exact Hr|]. split; [exact Ha|exact Hp].
Defined.

(** * Further properties of the code *)

(** ** Moves and rewards *)

(** X1: every reward is -1, 0 or 1; each move beats exactly one move and
    loses to exactly one, the one [counter_move] answers with. *)
Theorem get_reward_cyclic (a b : Move) :
  (get_reward a b = -1 \/ get_reward a b = 0 \/ get_reward a b = 1) /\
  (get_reward a b = 1 <-> a = beats b) /\
  (get_reward a b = -1 <-> b = beats a) /\
  (get_reward a b = 0 <-> a = b).
Proof.
  destruct a, b; cbn.
  all: repeat split; intros; try discriminate; try reflexivity; try lia; auto.
Qed.

(** X2: without a bluff counter_move reads one draw and returns the move
    that wins against the predicted move. *)
Theorem counter_move_wins (move : Move) (g : rng) :
  (draws g (position g)).2 = false ->
  exists answer,
    counter_move move g = (rng_next g, answer) /\
    get_reward answer move = 1.
Proof.
  intros Hno. unfold counter_move, random_below_0_05. rewrite Hno.
  eexists. split; [reflexivity|]. by destruct move.
Qed.

Lemma counter_move_wins_witness :
  let g := {| draws := fun _ => (Rock, false); position := 0 |} in
  (draws g (position g)).2 = false /\
  exists answer,
    counter_move Scissors g = (rng_next g, answer) /\
    get_reward answer Scissors = 1.
Proof.
  intros g. split; [reflexivity|].
  apply (counter_move_wins Scissors g). reflexivity.
Defined.

(** ** FrequencyCounter *)

Lemma FrequencyCounter_updates_from (rounds : list RoundRecord) : forall r p s,
  exists r' p' s',
    FrequencyCounter.updates
      {| FrequencyCounter.counts := [(Rock, r); (Paper, p); (Scissors, s)] |} rounds
    = Ok {| FrequencyCounter.counts := [(Rock, r'); (Paper, p'); (Scissors, s')] |} /\
    r' = r + occurrences Rock rounds.*2 /\
    p' = p + occurrences Paper rounds.*2 /\
    s' = s + occurrences Scissors rounds.*2.
Proof.
  induction rounds as [|[my opp] rest IH]; intros r p s.
  - exists r, p, s. cbn. repeat split; lia.
  - change (FrequencyCounter.updates ?x ((my, opp) :: rest))
      with (x' ← FrequencyCounter.update x my opp; FrequencyCounter.updates x' rest).
    destruct opp.
    + change (FrequencyCounter.update _ my Rock)
        with (Ok {| FrequencyCounter.counts := [(Rock, r + 1); (Paper, p); (Scissors, s)] |}).
      destruct (IH (r + 1) p s) as (r' & p' & s' & Hupd & -> & -> & ->).
      exists (r + 1 + occurrences Rock rest.*2), (p + occurrences Paper rest.*2),
        (s + occurrences Scissors rest.*2).
      split; [exact Hupd|]. cbn [fmap list_fmap snd occurrences].
      repeat split; repeat case_decide; first [lia | congruence].
    + change (FrequencyCounter.update _ my Paper)
        with (Ok {| FrequencyCounter.counts := [(Rock, r); (Paper, p + 1); (Scissors, s)] |}).
      destruct (IH r (p + 1) s) as (r' & p' & s' & Hupd & -> & -> & ->).
      exists (r + occurrences Rock rest.*2), (p + 1 + occurrences Paper rest.*2),
        (s + occurrences Scissors rest.*2).
      split; [exact Hupd|]. cbn [fmap list_fmap snd occurrences].
      repeat split; repeat case_decide; first [lia | congruence].
    + change (FrequencyCounter.update _ my Scissors)
        with (Ok {| FrequencyCounter.counts := [(Rock, r); (Paper, p); (Scissors, s + 1)] |}).
      destruct (IH r p (s + 1)) as (r' & p' & s' & Hupd & -> & -> & ->).
      exists (r + occurrences Rock rest.*2), (p + occurrences Paper rest.*2),
        (s + 1 + occurrences Scissors rest.*2).
      split; [exact Hupd|]. cbn [fmap list_fmap snd occurrences].
      repeat split; repeat case_decide; first [lia | congruence].
Qed.



(** ** FirstOrderMarkov *)

Lemma FirstOrderMarkov_update_cells (cell : Move -> Move -> Z) (l my opp : Move) :
  FirstOrderMarkov.update
    {| FirstOrderMarkov.transitions := table_of cell; FirstOrderMarkov.last := Some l |}
    my opp
  = Ok {| FirstOrderMarkov.transitions := table_of (bump cell l opp);
          FirstOrderMarkov.last := Some opp |}.
Proof. destruct l, opp; reflexivity. Qed.

Lemma count_pairs_cons (a b x y : Move) (rest : list Move) :
  count_pairs a b (x :: y :: rest)
  = (if decide (x = a /\ y = b) then 1 else 0) + count_pairs a b (y :: rest).
Proof. reflexivity. Qed.

Lemma FirstOrderMarkov_updates_from (rounds : list RoundRecord) : forall cell l,
  exists cell',
    FirstOrderMarkov_updates
      {| FirstOrderMarkov.transitions := table_of cell; FirstOrderMarkov.last := Some l |}
      rounds
    = Ok {| FirstOrderMarkov.transitions := table_of cell';
            FirstOrderMarkov.last := last (l :: rounds.*2) |} /\
    forall a b, cell' a b = cell a b + count_pairs a b (l :: rounds.*2).
Proof.
  induction rounds as [|[my opp] rest IH]; intros cell l.
  - exists cell. split; [reflexivity|]. intros a b. cbn. lia.
  - change (FirstOrderMarkov_updates ?x ((my, opp) :: rest))
      with (x' ← FirstOrderMarkov.update x my opp; FirstOrderMarkov_updates x' rest).
    rewrite FirstOrderMarkov_update_cells. cbn [mbind result_bind].
    destruct (IH (bump cell l opp) opp) as (cell' & Hupd & Hcell).
    exists cell'. split; [exact Hupd|].
    intros a b. rewrite Hcell. cbn [fmap list_fmap snd].
    rewrite count_pairs_cons. unfold bump.
    repeat case_decide; try lia; exfalso; intuition (subst; tauto).
Qed.

(** X3: FirstOrderMarkov.update never raises on moves; after any sequence of
    updates [last] is the opponent's latest move and every cell
    [transitions[a][b]] is 1 plus the number of times the opponent played
    [b] right after [a], so no cell ever falls below its seed 1. *)
Theorem FirstOrderMarkov_counts_transitions (rounds : list RoundRecord) :
  exists self,
    FirstOrderMarkov_updates FirstOrderMarkov.init rounds = Ok self /\
    FirstOrderMarkov.last self = last rounds.*2 /\
    forall a b,
      FirstOrderMarkov_cell self a b = Some (1 + count_pairs a b rounds.*2) /\
      1 <= 1 + count_pairs a b rounds.*2.
Proof.
  assert (Hnonneg : forall a b ms, 0 <= count_pairs a b ms).
  { intros a b ms. induction ms as [|x rest IH]; [done|].
    destruct rest as [|y rest]; [cbn; lia|].
    rewrite count_pairs_cons. case_decide; lia. }
  destruct rounds as [|[my opp] rest].
  - exists FirstOrderMarkov.init. split; [reflexivity|]. split; [reflexivity|].
    intros [] []; split; reflexivity || (cbn; lia).
  - destruct (FirstOrderMarkov_updates_from rest (fun _ _ => 1) opp) as (cell' & Hupd & Hcell).
    eexists. split; [exact Hupd|]. split; [reflexivity|].
    intros a b. split; [|generalize (Hnonneg a b (opp :: rest.*2)); cbn; lia].
    cbn [fmap list_fmap snd].
    replace (1 + count_pairs a b (opp :: rest.*2)) with (cell' a b) by apply Hcell.
    destruct a, b; reflexivity.
Qed.

(** [max(d, key=d.get)] on a dictionary with the keys R, P, S: a key of
    maximal value, every earlier key having a strictly smaller value. *)
Lemma dict_argmax_RPS (f : Move -> Z) :
  exists m,
    dict_argmax (row_of f) = Ok m /\
    (forall m', f m' <= f m) /\
    (forall m', (Move_to_nat m' < Move_to_nat m)%nat -> f m' < f m).
Proof.
  unfold dict_argmax, py_max, row_of. cbn [fmap list_fmap fst max_from].
  rewrite !dict_key_RPS.
  destruct (Z.ltb_spec (f Rock) (f Paper)), (Z.ltb_spec (f Rock) (f Scissors)),
    (Z.ltb_spec (f Paper) (f Scissors));
    (eexists; split; [reflexivity|]);
    (split; intros []; cbn; lia).
Qed.

(** X4: before its first update FirstOrderMarkov.predict returns a random
    move (one draw); after at least one update it reads no randomness and
    returns the move [b] that followed the opponent's latest move most
    often, the earliest in the order R, P, S among equals. *)
Theorem FirstOrderMarkov_predict_most_frequent_successor
    (rounds history : list RoundRecord) (g : rng) :
  exists self,
    FirstOrderMarkov_updates FirstOrderMarkov.init rounds = Ok self /\
    match last rounds.*2 with
    | None =>
        FirstOrderMarkov.predict self history g
        = (rng_next g, Ok (draws g (position g)).1)
    | Some l =>
        exists m,
          FirstOrderMarkov.predict self history g = (g, Ok m) /\
          (forall m', count_pairs l m' rounds.*2 <= count_pairs l m rounds.*2) /\
          (forall m', (Move_to_nat m' < Move_to_nat m)%nat ->
                      count_pairs l m' rounds.*2 < count_pairs l m rounds.*2)
    end.
Proof.
  destruct rounds as [|[my opp] rest].
  - exists FirstOrderMarkov.init. split; reflexivity.
  - destruct (FirstOrderMarkov_updates_from rest (fun _ _ => 1) opp) as (cell' & Hupd & Hcell).
    eexists. split; [exact Hupd|].
    change (((my, opp) :: rest).*2) with (opp :: rest.*2).
    destruct (last (opp :: rest.*2)) as [l|] eqn:Hlast.
    2:{ by rewrite last_cons in Hlast; destruct (last rest.*2). }
    destruct (dict_argmax_RPS (cell' l)) as (m & Hm & Hmax & Hfirst).
    exists m. split.
    + unfold FirstOrderMarkov.predict.
      cbn [FirstOrderMarkov.last FirstOrderMarkov.transitions].
      rewrite <- Hm. by destruct l.
    + split.
      * intros m'. specialize (Hmax m'). rewrite !Hcell in Hmax. lia.
      * intros m' Hlt. specialize (Hfirst m' Hlt). rewrite !Hcell in Hfirst. lia.
Qed.

(** ** FrequencyCounter: the most frequent move *)

(** C10: FrequencyCounter.predict is decided by the three stored counts
    alone: whatever numbers r, p, s the dictionary holds for R, P, S, predict
    returns a move whose stored count is maximal, every move before it in the
    order R, P, S having a strictly smaller count; the states update reaches
    are of this shape, each count being the number of times the opponent
    played the move; before any update (all counts zero) predict returns
    R. *)
Theorem FrequencyCounter_predict_deterministic :
  (forall (r p s : Z) (history : list RoundRecord),
      let stored := fun m => match m with Rock => r | Paper => p | Scissors => s end in
      exists m,
        FrequencyCounter.predict
          {| FrequencyCounter.counts := [(Rock, r); (Paper, p); (Scissors, s)] |} history
        = Ok m /\
        (forall m', stored m' <= stored m) /\
        (forall m', (Move_to_nat m' < Move_to_nat m)%nat -> stored m' < stored m)) /\
  (forall rounds : list RoundRecord,
      FrequencyCounter.updates FrequencyCounter.init rounds
      = Ok {| FrequencyCounter.counts :=
                [(Rock, occurrences Rock rounds.*2);
                 (Paper, occurrences Paper rounds.*2);
                 (Scissors, occurrences Scissors rounds.*2)] |}) /\
  (forall history, FrequencyCounter.predict FrequencyCounter.init history = Ok Rock) /\
  (forall history,
      FrequencyCounter.predict
        {| FrequencyCounter.counts := [(Rock, 0); (Paper, 5); (Scissors, 0)] |} history
      = Ok Paper) /\
  (forall history,
      FrequencyCounter.predict
        {| FrequencyCounter.counts := [(Rock, 2); (Paper, 3); (Scissors, 3)] |} history
      = Ok Paper).
Proof.
  split; [|split; [|repeat split]].
  - intros r p s history stored.
    unfold FrequencyCounter.predict, dict_argmax, py_max.
    cbn [FrequencyCounter.counts fmap list_fmap fst max_from].
    rewrite !dict_key_RPS.
    destruct (Z.ltb_spec r p), (Z.ltb_spec r s), (Z.ltb_spec p s);
      (eexists; split; [reflexivity|]);
      (split; intros []; cbn; lia).
  - intros rounds.
    destruct (FrequencyCounter_updates_from rounds 0 0 0) as (r & p & s & Hupd & -> & -> & ->).
    exact Hupd.
Qed.

(** X5: FrequencyCounter.update never raises on moves; after any sequence
    of updates the count of each move is the number of times the opponent
    played it (the own moves are ignored), and predict returns the move the
    opponent played most often, the earliest in the order R, P, S among
    equals. *)
Theorem FrequencyCounter_counts_occurrences (rounds history : list RoundRecord) :
  exists self m,
    FrequencyCounter.updates FrequencyCounter.init rounds = Ok self /\
    (forall m', dict_get (FrequencyCounter.counts self) m'
                = Some (occurrences m' rounds.*2)) /\
    FrequencyCounter.predict self history = Ok m /\
    (forall m', occurrences m' rounds.*2 <= occurrences m rounds.*2) /\
    (forall m', (Move_to_nat m' < Move_to_nat m)%nat ->
                occurrences m' rounds.*2 < occurrences m rounds.*2).
Proof.
  destruct (FrequencyCounter_updates_from rounds 0 0 0) as (r & p & s & Hupd & -> & -> & ->).
  destruct (dict_argmax_RPS (fun m => 0 + occurrences m rounds.*2)) as (m & Hm & Hmax & Hfirst).
  eexists; exists m. split; [exact Hupd|]. split; [intros []; reflexivity|].
  split; [exact Hm|]. split.
  - intros m'. specialize (Hmax m'). lia.
  - intros m' Hlt. specialize (Hfirst m' Hlt). lia.
Qed.

(** ** get_opponent_move: the whole dialogue *)

Lemma get_opponent_move_skips `{Float} {uc : Unicode} (skipped lines : list string)
    (out : list output_line) :
  Forall (fun l => line_rejected l = true) skipped ->
  get_opponent_move_lines (skipped ++ lines) out
  = get_opponent_move_lines lines (out ++ replicate (length skipped) Reprompt).
Proof.
  intros Hrej. revert out.
  induction Hrej as [|l skipped Hl _ IH]; intros out.
  - cbn. by rewrite app_nil_r.
  - cbn [app get_opponent_move_lines].
    unfold line_rejected, line_accepted in Hl.
    apply andb_true_iff in Hl as [Hacc He].
    apply negb_true_iff in Hacc. apply negb_true_iff in He.
    rewrite Hacc, He, IH. cbn [length replicate].
    by rewrite <- app_assoc.
Qed.

(** X6: get_opponent_move asks again (one re-prompt each) for every line it
    rejects and stops at the first other line: an accepted line is returned
    in upper case and is one of R, P, S, RP, PS, RPS; a line that reads E in
    upper case raises SystemExit; the lines after it stay unread. *)
Theorem get_opponent_move_first_decisive `{Float} {uc : Unicode} (skipped : list string) (line : string)
    (rest : list string) (out : list output_line) :
  Forall (fun l => line_rejected l = true) skipped ->
  line_rejected line = false ->
  let io' := {| stdin := rest; stdout := out ++ replicate (length skipped) Reprompt |} in
  get_opponent_move {| stdin := skipped ++ line :: rest; stdout := out |}
  = (io', if line_accepted line then Ok (str_upper line) else Raise SystemExit) /\
  (line_accepted line = true ->
   str_upper line ∈ ["R"; "P"; "S"; "RP"; "PS"; "RPS"]) /\
  (line_accepted line = false -> str_upper line = "E").
Proof.
  intros Hskip Hline io'. unfold get_opponent_move. cbn [stdin stdout].
  rewrite (get_opponent_move_skips skipped (line :: rest) out Hskip).
  cbn [get_opponent_move_lines]. fold (line_accepted line).
  unfold line_rejected in Hline.
  destruct (line_accepted line) eqn:Hacc.
  - split; [reflexivity|]. split; [|done]. intros _.
    unfold line_accepted in Hacc. apply andb_true_iff in Hacc as [Hin Hne].
    apply str_in_RPS in Hin. apply negb_true_iff in Hne.
    destruct (String.eqb_spec (str_upper line) "") as [|Hne']; [done|].
    rewrite !elem_of_cons in Hin. rewrite !elem_of_cons. tauto.
  - cbn [negb andb] in Hline. apply negb_false_iff in Hline. rewrite Hline.
    split; [reflexivity|]. split; [done|]. intros _. by apply String.eqb_eq.
Qed.

Lemma get_opponent_move_first_decisive_witness :
  Forall (fun l => line_rejected (uc := PlainUnicode) l = true) ["rock"; ""] /\
  line_rejected (uc := PlainUnicode) "s" = false /\
  get_opponent_move (H := MilliFloat) (uc := PlainUnicode) {| stdin := ["rock"; ""] ++ "s" :: ["p"]; stdout := [] |}
  = ({| stdin := ["p"]; stdout := [] ++ replicate 2 Reprompt |}, Ok "S").
Proof.
  assert (Hskip : Forall (fun l => line_rejected (uc := PlainUnicode) l = true) ["rock"; ""])
    by (repeat constructor).
  split; [exact Hskip|]. split; [reflexivity|].
  exact (proj1 (get_opponent_move_first_decisive (H := MilliFloat) (uc := PlainUnicode)
                  ["rock"; ""] "s" ["p"] [] Hskip eq_refl)).
Defined.

(** X7: when every remaining line is rejected get_opponent_move re-prompts
    once per line and ends in EOFError: it never returns a default move. *)
Theorem get_opponent_move_input_exhausted `{Float} {uc : Unicode} (lines : list string)
    (out : list output_line) :
  Forall (fun l => line_rejected l = true) lines ->
  get_opponent_move {| stdin := lines; stdout := out |}
  = ({| stdin := []; stdout := out ++ replicate (length lines) Reprompt |}, Raise EOFError).
Proof.
  intros Hrej. unfold get_opponent_move. cbn [stdin stdout].
  rewrite <- (app_nil_r lines) at 1.
  by rewrite (get_opponent_move_skips lines [] out Hrej).
Qed.

Lemma get_opponent_move_input_exhausted_witness :
  Forall (fun l => line_rejected (uc := PlainUnicode) l = true) ["x"; "rr"] /\
  get_opponent_move (H := MilliFloat) (uc := PlainUnicode) {| stdin := ["x"; "rr"]; stdout := [] |}
  = ({| stdin := []; stdout := [] ++ replicate 2 Reprompt |}, Raise EOFError).
Proof.
  assert (Hrej : Forall (fun l => line_rejected (uc := PlainUnicode) l = true) ["x"; "rr"])
    by (repeat constructor).
  split; [exact Hrej|].
  exact (get_opponent_move_input_exhausted (H := MilliFloat) (uc := PlainUnicode) ["x"; "rr"] [] Hrej).
Defined.

(** X8: the answer depends on the input lines only through their upper
    case: two inputs that agree after [upper()] give the same result, the
    same re-prompts and leave equally many lines unread. *)
Theorem get_opponent_move_case_insensitive `{Float} {uc : Unicode} (lines1 lines2 : list string)
    (out : list output_line) :
  str_upper <$> lines1 = str_upper <$> lines2 ->
  let r1 := get_opponent_move {| stdin := lines1; stdout := out |} in
  let r2 := get_opponent_move {| stdin := lines2; stdout := out |} in
  r1.2 = r2.2 /\
  stdout r1.1 = stdout r2.1 /\
  length (stdin r1.1) = length (stdin r2.1).
Proof.
  unfold get_opponent_move. cbn [stdin stdout].
  revert lines2 out.
  induction lines1 as [|l1 lines1 IH]; intros [|l2 lines2] out Heq;
    try discriminate; [by cbn|].
  injection Heq as Hl Heq.
  cbn [get_opponent_move_lines]. rewrite Hl.
  destruct (str_in (str_upper l2) "RPS" && negb (String.eqb (str_upper l2) "")).
  - cbn [fst snd stdin stdout]. repeat split.
    apply (f_equal length) in Heq. by rewrite !length_fmap in Heq.
  - destruct (String.eqb (str_upper l2) "E").
    + cbn [fst snd stdin stdout]. repeat split.
      apply (f_equal length) in Heq. by rewrite !length_fmap in Heq.
    + by apply IH.
Qed.

Lemma get_opponent_move_case_insensitive_witness :
  str_upper (uc := PlainUnicode) <$> ["x"; "p"; "r"]
  = str_upper (uc := PlainUnicode) <$> ["X"; "P"; "R"] /\
  (get_opponent_move (H := MilliFloat) (uc := PlainUnicode) {| stdin := ["x"; "p"; "r"]; stdout := [] |}).2
  = (get_opponent_move (H := MilliFloat) (uc := PlainUnicode) {| stdin := ["X"; "P"; "R"]; stdout := [] |}).2.
Proof.
  split; [reflexivity|].
  exact (proj1 (get_opponent_move_case_insensitive (H := MilliFloat) (uc := PlainUnicode)
                  ["x"; "p"; "r"] ["X"; "P"; "R"] [] eq_refl)).
Defined.

(** ** BanditController: contexts *)

Lemma context_key_long (history : list RoundRecord) :
  (3 <= length history)%nat ->
  exists a b c,
    drop (length history - 3) history = [a; b; c] /\
    BanditController._context_key history = [Some a; Some b; Some c].
Proof.
  intros Hlen. unfold BanditController._context_key.
  destruct (Nat.ltb_spec (length history) 3) as [|_]; [lia|].
  assert (Hd : length (drop (length history - 3) history) = 3%nat).
  { rewrite length_drop. lia. }
  destruct (drop (length history - 3) history) as [|a [|b [|c [|? ?]]]];
    try discriminate.
  by exists a, b, c.
Qed.

(** X9: the context of a history is decided by its last three round
    records: two histories share a context exactly when both are shorter
    than 3 (the (None, None, None) key) or both have at least 3 records and
    the same last three. *)
Theorem context_key_last_three (h1 h2 : list RoundRecord) :
  BanditController._context_key h1 = BanditController._context_key h2 <->
  ((length h1 < 3)%nat /\ (length h2 < 3)%nat) \/
  ((3 <= length h1)%nat /\ (3 <= length h2)%nat /\
   drop (length h1 - 3) h1 = drop (length h2 - 3) h2).
Proof.
  destruct (Nat.ltb_spec (length h1) 3) as [H1|H1], (Nat.ltb_spec (length h2) 3) as [H2|H2].
  - split; [auto|]. intros _. unfold BanditController._context_key.
    destruct (Nat.ltb_spec (length h1) 3), (Nat.ltb_spec (length h2) 3); try lia; done.
  - destruct (context_key_long h2 H2) as (a & b & c & _ & ->).
    unfold BanditController._context_key.
    destruct (Nat.ltb_spec (length h1) 3); [|lia].
    split; [discriminate|]. intros [[? ?]|[? _]]; lia.
  - destruct (context_key_long h1 H1) as (a & b & c & _ & ->).
    unfold BanditController._context_key.
    destruct (Nat.ltb_spec (length h2) 3); [|lia].
    split; [discriminate|]. intros [[? ?]|[_ [? _]]]; lia.
  - destruct (context_key_long h1 H1) as (a1 & b1 & c1 & -> & ->).
    destruct (context_key_long h2 H2) as (a2 & b2 & c2 & -> & ->).
    split.
    + intros [= -> -> ->]. right. auto.
    + intros [[? ?]|(_ & _ & [= -> -> ->])]; [lia|done].
Qed.

Lemma ensure_context_frame `{Float} (h : heap) (context : Context) (c : BanditController.t) :
  let c' := (BanditController.ensure_context h context c).1 in
  BanditController.strategies c' = BanditController.strategies c /\
  (forall other, other <> context ->
     BanditController.context_memory c' !! other
     = BanditController.context_memory c !! other) /\
  (is_Some (BanditController.context_memory c !! context) -> c' = c).
Proof.
  unfold BanditController.ensure_context.
  destruct (BanditController.context_memory c !! context) eqn:Hctx.
  - cbn [fst]. by split.
  - destruct (py_len h (BanditController.strategies c)); cbn.
    + split; [done|]. split; [|by intros []].
      intros other Hne. by rewrite lookup_insert_ne.
    + split; [done|]. split; [done|]. by intros [].
Qed.

(** X10: the statistics of different contexts are independent:
    select_strategy changes nothing in a controller that already knows the
    context and otherwise only adds that context; update leaves the
    statistics of every other context as they were. *)
Theorem controller_contexts_independent `{Float} (h : heap) (history : list RoundRecord)
    (index : nat) (reward : Z) (c : BanditController.t) :
  let context := BanditController._context_key history in
  let selected := (BanditController.select_strategy h history c).1 in
  let updated := (BanditController.update h history index reward c).1 in
  (is_Some (BanditController.context_memory c !! context) -> selected = c) /\
  (forall other, other <> context ->
     BanditController.context_memory selected !! other
     = BanditController.context_memory c !! other /\
     BanditController.context_memory updated !! other
     = BanditController.context_memory c !! other).
Proof.
  intros context selected updated.
  destruct (ensure_context_frame h context c) as (Hv & Hframe & Hknown).
  assert (Hsel : selected = (BanditController.ensure_context h context c).1).
  { unfold selected, BanditController.select_strategy. fold context.
    by destruct (BanditController.ensure_context h context c) as [c' [[]|e]]. }
  split; [intros Hk; rewrite Hsel; by apply Hknown|].
  intros other Hne. split; [rewrite Hsel; by apply Hframe|].
  unfold updated, BanditController.update. fold context.
  destruct (BanditController.ensure_context h context c) as [c' [[]|e]];
    cbn [fst] in Hframe; [|by apply Hframe].
  destruct (BanditController.context_memory c' !! context) as [stats|];
    [|by apply Hframe].
  destruct (stats !! index) as [[r k]|]; [|by apply Hframe].
  cbn [fst BanditController.context_memory].
  rewrite lookup_insert_ne by done. by apply Hframe.
Qed.

(** X11: select_strategy learns nothing from being called: a second call on
    the same history returns the same index (or raises the same exception)
    and leaves the controller as the first call left it. *)
Theorem select_strategy_idempotent `{Float} (h : heap) (history : list RoundRecord)
    (c : BanditController.t) :
  let first := BanditController.select_strategy h history c in
  BanditController.select_strategy h history first.1 = first.
Proof.
  cbn zeta. unfold BanditController.select_strategy, BanditController.ensure_context.
  set (context := BanditController._context_key history).
  destruct (BanditController.context_memory c !! context) as [stats|] eqn:Hctx.
  - cbn [fst]. rewrite Hctx. cbn [fst]. by rewrite Hctx.
  - destruct (py_len h (BanditController.strategies c)) as [n|e] eqn:Hlen.
    + cbn [fst BanditController.context_memory BanditController.strategies].
      rewrite !lookup_insert_eq.
      cbn [fst BanditController.context_memory BanditController.strategies].
      by rewrite !lookup_insert_eq.
    + cbn [fst]. by rewrite Hctx, Hlen.
Qed.

(** ** BanditController: first choice and failures *)

Lemma f_max_from_constant `{fl : Float} {fo : FloatOrder fl} (x : F) (l : list F) :
  Forall (eq x) l -> BanditController.f_max_from x l = x.
Proof.
  induction 1 as [|y l <- _ IH]; [done|].
  cbn [BanditController.f_max_from]. by rewrite f_ltb_irrefl.
Qed.

(** X12: in a context seen for the first time all scores are equal, so
    select_strategy returns index 0, the first strategy of the collection. *)
Theorem select_strategy_new_context_first `{fl : Float} {fo : FloatOrder fl} (h : heap)
    (n : nat) (history : list RoundRecord) (c : BanditController.t) :
  py_len h (BanditController.strategies c) = Ok n ->
  (0 < n)%nat ->
  BanditController.context_memory c !! BanditController._context_key history = None ->
  (BanditController.select_strategy h history c).2 = Ok 0%nat.
Proof.
  intros Hlen Hn Hnone.
  unfold BanditController.select_strategy, BanditController.ensure_context.
  rewrite Hnone, Hlen.
  cbn [fst snd BanditController.context_memory BanditController.strategies].
  rewrite lookup_insert_eq, Hlen. cbn [mbind result_bind].
  set (stats := BanditController.fresh_stats n).
  set (total := BanditController.total_pulls stats).
  assert (Htotal : 0 < total).
  { pose proof (total_pulls_ge n stats (fresh_stats_ok n)). unfold total. lia. }
  rewrite (mapM_Ok _ (ucb1_spec stats total)).
  2:{ intros i Hi%elem_of_seq. apply (ucb_score_spec n); [apply fresh_stats_ok|lia|done]. }
  cbn [mbind result_bind].
  set (x := ucb1_spec stats total 0).
  assert (Hall : Forall (eq x) (ucb1_spec stats total <$> seq 0 n)).
  { apply Forall_fmap, Forall_forall. intros i Hi%elem_of_seq. cbn.
    unfold x, ucb1_spec, stats. rewrite !fresh_stats_lookup.
    destruct (decide (0 < n)%nat); [|lia]. destruct (decide (i < n)%nat); [done|lia]. }
  destruct n as [|n]; [lia|].
  change (seq 0 (S n)) with (0%nat :: seq 1 n) in *.
  cbn [fmap list_fmap] in *. fold x in Hall |- *.
  apply Forall_cons in Hall as [_ Hall].
  cbn [BanditController.f_max mbind result_bind].
  rewrite (f_max_from_constant x _ Hall).
  cbn [BanditController.f_index]. by rewrite f_eqb_refl.
Qed.

Lemma select_strategy_new_context_first_witness :
  py_len heap_separate_members
    (BanditController.strategies (H := MilliFloat) (BanditController.new four_strategies))
  = Ok 4%nat /\
  (BanditController.select_strategy (H := MilliFloat) heap_separate_members
     [(Rock, Paper)] (BanditController.new four_strategies)).2 = Ok 0%nat.
Proof.
  split; [reflexivity|].
  apply (select_strategy_new_context_first (fo := MilliFloat_order)
           heap_separate_members 4 [(Rock, Paper)] (BanditController.new four_strategies)).
  - reflexivity.
  - lia.
  - reflexivity.
Defined.

(** X13: a controller whose strategies have no length (None, or an object
    that is not a list) never selects: every select_strategy raises the
    exception of [len] and leaves the controller unchanged, and so does
    update in a context it does not know yet. *)
Theorem controller_without_length_raises `{Float} (h : heap) (e : exn)
    (history : list RoundRecord) (index : nat) (reward : Z) (c : BanditController.t) :
  py_len h (BanditController.strategies c) = Raise e ->
  BanditController.select_strategy h history c = (c, Raise e) /\
  (BanditController.context_memory c !! BanditController._context_key history = None ->
   BanditController.update h history index reward c = (c, Raise e)).
Proof.
  intros Hlen. split.
  - unfold BanditController.select_strategy, BanditController.ensure_context.
    destruct (BanditController.context_memory c !! _) as [stats|] eqn:Hctx.
    + by rewrite Hctx, Hlen.
    + by rewrite Hlen.
  - intros Hnone. unfold BanditController.update, BanditController.ensure_context.
    by rewrite Hnone, Hlen.
Qed.

Lemma controller_without_length_raises_witness :
  py_len heap_separate_members
    (BanditController.strategies (H := MilliFloat) (BanditController.new VNone))
  = Raise TypeError /\
  BanditController.select_strategy (H := MilliFloat) heap_separate_members
    [] (BanditController.new VNone)
  = (BanditController.new VNone, Raise TypeError).
Proof.
  split; [reflexivity|].
  exact (proj1 (controller_without_length_raises (H := MilliFloat) heap_separate_members
                  TypeError [] 0 0 (BanditController.new VNone) eq_refl)).
Defined.

(** X14: update with an index outside the collection raises KeyError, but
    only after the context has been created: the controller is left as
    select_strategy would leave it. *)
Theorem update_index_out_of_range `{Float} (h : heap) (v : value) (n : nat)
    (history : list RoundRecord) (index : nat) (reward : Z) (c : BanditController.t) :
  py_len h v = Ok n ->
  reachable h v c ->
  (n <= index)%nat ->
  BanditController.update h history index reward c
  = ((BanditController.select_strategy h history c).1, Raise KeyError).
Proof.
  intros Hlen Hreach Hidx.
  pose proof (reachable_ok h v n c Hlen Hreach) as Hok.
  destruct (update_effect h v n history index reward c Hlen Hok)
    as (stats & Hctx & [Hdom _] & Hupd).
  destruct (stats !! index) as [rc|] eqn:Hlook; [|done].
  assert (index < n)%nat by (apply Hdom; eauto). lia.
Qed.

Lemma update_index_out_of_range_witness :
  py_len heap_separate_members four_strategies = Ok 4%nat /\
  BanditController.update (H := MilliFloat) heap_separate_members [] 4 1
    (BanditController.new four_strategies)
  = ((BanditController.select_strategy heap_separate_members []
        (BanditController.new four_strategies)).1, Raise KeyError).
Proof.
  split; [reflexivity|].
  apply (update_index_out_of_range (H := MilliFloat) heap_separate_members
           four_strategies 4 [] 4 1 (BanditController.new four_strategies)).
  - reflexivity.
  - constructor.
  - lia.
Defined.

(** X15: over an empty collection select_strategy raises ValueError
    ([max] of no scores) on every history, in every reachable state. *)
Theorem select_strategy_empty_collection `{Float} (h : heap) (v : value)
    (history : list RoundRecord) (c : BanditController.t) :
  py_len h v = Ok 0%nat ->
  reachable h v c ->
  (BanditController.select_strategy h history c).2 = Raise ValueError.
Proof.
  intros Hlen Hreach.
  pose proof (reachable_ok h v 0 c Hlen Hreach) as Hok.
  destruct (select_strategy_result h v 0 history c Hlen Hok)
    as (c1 & stats & _ & _ & _ & Hsel).
  cbn zeta in Hsel. by rewrite Hsel.
Qed.

Lemma select_strategy_empty_collection_witness :
  py_len heap_no_strategies four_strategies = Ok 0%nat /\
  (BanditController.select_strategy (H := MilliFloat) heap_no_strategies []
     (BanditController.new four_strategies)).2 = Raise ValueError.
Proof.
  split; [reflexivity|].
  apply (select_strategy_empty_collection (H := MilliFloat) heap_no_strategies
           four_strategies [] (BanditController.new four_strategies)).
  - reflexivity.
  - constructor.
Defined.

(** ** FuzzyVotingStrategy *)

Lemma row_of_ext (f g : Move -> Z) : (forall m, f m = g m) -> row_of f = row_of g.
Proof. intros Hfg. unfold row_of. by rewrite !Hfg. Qed.

Lemma dict_incr_row (f : Move -> Z) (p : Move) :
  dict_incr p (row_of f) = Ok (row_of (fun m => if decide (m = p) then f m + 1 else f m)).
Proof. destruct p; reflexivity. Qed.

Lemma tally_votes_from (predict : loc -> rng -> rng * result Move) (items : list loc) :
  forall (f : Move -> Z) (g : rng),
    tally_votes predict items (row_of f) g
    = match member_predictions predict items g with
      | (g', Ok ps) => (g', dict_argmax (row_of (fun m => f m + occurrences m ps)))
      | (g', Raise e) => (g', Raise e)
      end.
Proof.
  induction items as [|x rest IH]; intros f g; cbn [tally_votes member_predictions].
  - f_equal. f_equal. apply row_of_ext. intros m. cbn. lia.
  - destruct (predict x g) as [g' [p|e]]; [|done].
    rewrite dict_incr_row, IH.
    destruct (member_predictions predict rest g') as [g'' [ps|e]]; [|done].
    f_equal. f_equal. apply row_of_ext. intros m. cbn [occurrences].
    destruct (decide (m = p)) as [->|Hne].
    + rewrite decide_True by done. lia.
    + rewrite decide_False by congruence. lia.
Qed.

(** X16: the ensemble returns the plurality of its members' predictions,
    the earliest move in the order R, P, S among equals (R when it has no
    members); it raises only what a member raises, and then at once. *)
Theorem FuzzyVotingStrategy_predict_plurality (depth : nat) (h : heap) (s : loc)
    (v : value) (items : list loc) (history : list RoundRecord) (g : rng) :
  h !! s = Some (FuzzyVotingStrategyObj v) ->
  py_iter h v = Ok items ->
  match member_predictions (fun x => strategy_predict depth h x history) items g with
  | (g', Raise e) => strategy_predict (S depth) h s history g = (g', Raise e)
  | (g', Ok ps) =>
      exists m,
        strategy_predict (S depth) h s history g = (g', Ok m) /\
        (forall m', occurrences m' ps <= occurrences m ps) /\
        (forall m', (Move_to_nat m' < Move_to_nat m)%nat ->
                    occurrences m' ps < occurrences m ps)
  end.
Proof.
  intros Hs Hitems. cbn [strategy_predict]. rewrite Hs, Hitems.
  change vote_init with (row_of (fun _ => 0)). rewrite tally_votes_from.
  destruct (member_predictions _ items g) as [g' [ps|e]]; [|done].
  destruct (dict_argmax_RPS (fun m => 0 + occurrences m ps)) as (m & -> & Hmax & Hfirst).
  exists m. split; [done|]. split.
  - intros m'. specialize (Hmax m'). lia.
  - intros m' Hlt. specialize (Hfirst m' Hlt). lia.
Qed.

Lemma FuzzyVotingStrategy_predict_plurality_witness :
  let h := heap_separate_members in
  let history := [(Rock, Paper); (Paper, Paper)] in
  let g := {| draws := fun _ => (Scissors, false); position := 0 |} in
  h !! fuzzy_loc = Some (FuzzyVotingStrategyObj (VRef members_loc)) /\
  py_iter h (VRef members_loc) = Ok [freq_loc; markov_loc; mirror_loc] /\
  match member_predictions (fun x => strategy_predict 1 h x history)
          [freq_loc; markov_loc; mirror_loc] g with
  | (g', Raise e) => strategy_predict 2 h fuzzy_loc history g = (g', Raise e)
  | (g', Ok ps) =>
      exists m,
        strategy_predict 2 h fuzzy_loc history g = (g', Ok m) /\
        (forall m', occurrences m' ps <= occurrences m ps) /\
        (forall m', (Move_to_nat m' < Move_to_nat m)%nat ->
                    occurrences m' ps < occurrences m ps)
  end.
Proof.
  intros h history g. split; [reflexivity|]. split; [reflexivity|].
  apply (FuzzyVotingStrategy_predict_plurality 1 h fuzzy_loc (VRef members_loc)
           [freq_loc; markov_loc; mirror_loc] history g); reflexivity.
Defined.

Example FuzzyVotingStrategy_predict_three_way_tie :
  let g := {| draws := fun _ => (Scissors, false); position := 0 |} in
  (strategy_predict 2 heap_separate_members fuzzy_loc [(Rock, Paper)] g).2 = Ok Rock.
Proof. reflexivity. Qed.

(** X17: in the store [play_rps] builds, where the ensemble is a member of
    its own list, asking the ensemble for a prediction never yields one:
    whatever the depth limit, history and random source, the call ends in
    RecursionError. *)
Theorem fuzzy_predict_recursion (depth : nat) (h : heap) (history : list RoundRecord) :
  heap_ok h ->
  forall g, exists g',
    strategy_predict depth h fuzzy_loc history g = (g', Raise RecursionError).
Proof.
  intros Hok. induction depth as [|d IH]; intros g; [by exists g|].
  cbn [strategy_predict]. rewrite (heap_ok_fuzzy h Hok). cbn [py_iter].
  rewrite (heap_ok_list h Hok).
  destruct d as [|d']; [by exists g|].
  change vote_init with (row_of (fun _ => 0)).
  cbn [tally_votes].
  (* frequency counter *)
  destruct (heap_ok_freq h Hok) as (fc & Hfc & (r & p & s & Hcounts)%dict_full_inv).
  assert (Hf : exists m1, strategy_predict (S d') h freq_loc history g = (g, Ok m1)).
  { cbn [strategy_predict]. rewrite Hfc. unfold FrequencyCounter.predict. rewrite Hcounts.
    destruct (dict_argmax_RPS (fun m => match m with Rock => r | Paper => p | Scissors => s end))
      as (m1 & Hm1 & _). exists m1. by rewrite <- Hm1. }
  destruct Hf as (m1 & ->). rewrite dict_incr_row.
  (* first-order Markov *)
  destruct (heap_ok_markov h Hok) as (mk & Hmk & Hkeys & Hrows).
  assert (Hm : exists g1 m2, strategy_predict (S d') h markov_loc history g = (g1, Ok m2)).
  { cbn [strategy_predict]. rewrite Hmk. unfold FirstOrderMarkov.predict.
    destruct (FirstOrderMarkov.last mk) as [l|]; [|by eexists; eexists].
    destruct (FirstOrderMarkov.transitions mk) as [|[k1 r1] [|[k2 r2] [|[k3 r3] [|? ?]]]];
      cbn in Hkeys; try discriminate.
    injection Hkeys as -> -> ->. cbn in Hrows.
    apply Forall_cons in Hrows as [(a1 & b1 & c1 & ->)%dict_full_inv Hrows].
    apply Forall_cons in Hrows as [(a2 & b2 & c2 & ->)%dict_full_inv Hrows].
    apply Forall_cons in Hrows as [(a3 & b3 & c3 & ->)%dict_full_inv _].
    exists g.
    destruct l.
    - destruct (dict_argmax_RPS
                  (fun m => match m with Rock => a1 | Paper => b1 | Scissors => c1 end))
        as (m2 & Hm2 & _). exists m2. by rewrite <- Hm2.
    - destruct (dict_argmax_RPS
                  (fun m => match m with Rock => a2 | Paper => b2 | Scissors => c2 end))
        as (m2 & Hm2 & _). exists m2. by rewrite <- Hm2.
    - destruct (dict_argmax_RPS
                  (fun m => match m with Rock => a3 | Paper => b3 | Scissors => c3 end))
        as (m2 & Hm2 & _). exists m2. by rewrite <- Hm2. }
  destruct Hm as (g1 & m2 & ->). rewrite dict_incr_row.
  (* mirror *)
  assert (Hmi : exists g2 m3, strategy_predict (S d') h mirror_loc history g1 = (g2, Ok m3)).
  { cbn [strategy_predict]. rewrite (heap_ok_mirror h Hok). unfold MirrorStrategy.predict.
    destruct (last history) as [[? opp]|]; by eexists; eexists. }
  destruct Hmi as (g2 & m3 & ->). rewrite dict_incr_row.
  (* the ensemble again *)
  destruct (IH g2) as (g' & ->). by exists g'.
Qed.

Lemma fuzzy_predict_recursion_witness :
  exists h st,
    play_rps_setup (H := MilliFloat) = Ok (h, st) /\
    heap_ok h /\
    exists g',
      strategy_predict 1000 h fuzzy_loc []
        {| draws := fun _ => (Rock, false); position := 0 |}
      = (g', Raise RecursionError).
Proof.
  destruct (heap_after_append_ok (H := MilliFloat)) as (h & st & Hsetup & _ & Hok).
  exists h, st. split; [exact Hsetup|]. split; [exact Hok|].
  exact (fuzzy_predict_recursion 1000 h [] Hok _).
Defined.

(** ** The update loop on a collection that can be iterated *)

Lemma update_frequency_step (d : nat) (my opp : Move) (h : heap) :
  heap_separate_ok h ->
  exists h',
    strategy_update (S d) freq_loc my opp h = (h', Ok ()) /\
    heap_separate_ok h' /\
    forall m, frequency_count h' m
              = frequency_count h m + (if decide (m = opp) then 1 else 0).
Proof.
  intros Hok.
  destruct (heap_separate_freq h Hok) as (fc & Hfc & (r & p & s & Hcounts)%dict_full_inv).
  destruct fc as [counts]. cbn in Hcounts. subst counts.
  cbn [strategy_update]. rewrite Hfc. unfold FrequencyCounter.update.
  cbn [FrequencyCounter.counts].
  change [(Rock, r); (Paper, p); (Scissors, s)]
    with (row_of (fun m => match m with Rock => r | Paper => p | Scissors => s end)).
  rewrite dict_incr_row. cbn [mbind result_bind].
  eexists. split; [reflexivity|]. split.
  - split.
    + eexists. rewrite lookup_insert_eq. split; [reflexivity|reflexivity].
    + rewrite lookup_insert_ne by done. apply Hok.
    + rewrite lookup_insert_ne by done. apply Hok.
    + rewrite lookup_insert_ne by done. apply Hok.
    + rewrite lookup_insert_ne by done. apply Hok.
    + rewrite lookup_insert_ne by done. apply Hok.
  - intros m. unfold frequency_count. rewrite lookup_insert_eq, Hfc.
    unfold FrequencyCounter.count. cbn [FrequencyCounter.counts].
    unfold row_of. rewrite !dict_key_RPS.
    destruct m, opp; repeat case_decide; try congruence; lia.
Qed.

Lemma update_markov_step (d : nat) (my opp : Move) (h : heap) :
  heap_separate_ok h ->
  exists h',
    strategy_update (S d) markov_loc my opp h = (h', Ok ()) /\
    heap_separate_ok h' /\
    forall m, frequency_count h' m = frequency_count h m.
Proof.
  intros Hok.
  destruct (heap_separate_markov h Hok) as (mk & Hmk & Hkeys & Hrows).
  destruct (FirstOrderMarkov_update_ok mk my opp Hkeys Hrows)
    as (mk' & Hupd & Hkeys' & Hrows').
  cbn [strategy_update]. rewrite Hmk, Hupd.
  eexists. split; [reflexivity|]. split.
  - split.
    + rewrite lookup_insert_ne by done. apply Hok.
    + eexists. rewrite lookup_insert_eq. split; [reflexivity|by split].
    + rewrite lookup_insert_ne by done. apply Hok.
    + rewrite lookup_insert_ne by done. apply Hok.
    + rewrite lookup_insert_ne by done. apply Hok.
    + rewrite lookup_insert_ne by done. apply Hok.
  - intros m. unfold frequency_count. by rewrite lookup_insert_ne.
Qed.

Lemma update_base_strategies (d : nat) (my opp : Move) (h : heap) (rest : list loc) :
  heap_separate_ok h ->
  exists h',
    heap_separate_ok h' /\
    (forall m, frequency_count h' m
               = frequency_count h m + (if decide (m = opp) then 1 else 0)) /\
    for_each (fun x => strategy_update (S d) x my opp)
      (freq_loc :: markov_loc :: mirror_loc :: rest) h
    = for_each (fun x => strategy_update (S d) x my opp) rest h'.
Proof.
  intros Hok.
  destruct (update_frequency_step d my opp h Hok) as (h1 & Hf & Hok1 & Hc1).
  destruct (update_markov_step d my opp h1 Hok1) as (h2 & Hm & Hok2 & Hc2).
  exists h2. split; [done|]. split.
  - intros m. by rewrite Hc2, Hc1.
  - cbn [for_each]. rewrite Hf, Hm.
    assert (Hmi : strategy_update (S d) mirror_loc my opp h2 = (h2, Ok ())).
    { cbn [strategy_update]. by rewrite (heap_separate_mirror h2 Hok2). }
    by rewrite Hmi.
Qed.

(** X18: on a collection that can be iterated - the four strategies in one
    list, the ensemble over the three base ones - one pass of the loop of
    lines 189-190 succeeds and advances the FrequencyCounter twice for the
    move played: once directly and once through the ensemble. *)
Theorem update_all_advances_twice (depth : nat) (my opp : Move) (h : heap) :
  heap_separate_ok h ->
  (2 <= depth)%nat ->
  exists h',
    update_all depth (VRef base_strategies_loc) my opp h = (h', Ok ()) /\
    heap_separate_ok h' /\
    forall m, frequency_count h' m
              = frequency_count h m + (if decide (m = opp) then 2 else 0).
Proof.
  intros Hok Hdepth.
  destruct depth as [|[|d]]; try lia.
  unfold update_all. cbn [py_iter]. rewrite (heap_separate_list h Hok).
  destruct (update_base_strategies (S d) my opp h [fuzzy_loc] Hok)
    as (h1 & Hok1 & Hc1 & ->).
  cbn [for_each].
  assert (Hfz : strategy_update (S (S d)) fuzzy_loc my opp h1
                = for_each (fun x => strategy_update (S d) x my opp)
                    [freq_loc; markov_loc; mirror_loc] h1).
  { cbn [strategy_update]. rewrite (heap_separate_fuzzy h1 Hok1). cbn [py_iter].
    by rewrite (heap_separate_list_members h1 Hok1). }
  rewrite Hfz.
  destruct (update_base_strategies d my opp h1 [] Hok1)
    as (h2 & Hok2 & Hc2 & ->).
  cbn [for_each]. exists h2. split; [done|]. split; [done|].
  intros m. rewrite Hc2, Hc1. case_decide; lia.
Qed.

Lemma heap_separate_members_ok : heap_separate_ok heap_separate_members.
Proof.
  split; try reflexivity.
  - eexists. split; reflexivity.
  - eexists. split; [reflexivity|]. split; [reflexivity|]. cbn. repeat constructor.
Qed.

Lemma update_all_advances_twice_witness :
  heap_separate_ok heap_separate_members /\
  (2 <= 5)%nat /\
  exists h',
    update_all 5 (VRef base_strategies_loc) Paper Rock heap_separate_members = (h', Ok ()) /\
    heap_separate_ok h' /\
    forall m, frequency_count h' m
              = frequency_count heap_separate_members m
                + (if decide (m = Rock) then 2 else 0).
Proof.
  split; [exact heap_separate_members_ok|]. split; [lia|].
  apply (update_all_advances_twice 5 Paper Rock heap_separate_members
           heap_separate_members_ok). lia.
Defined.

(** ** The bookkeeping of a round *)

Lemma detector_frame `{Float} (st : locals) :
  history (detector st) = history st /\
  raw_opponent_moves (detector st) = raw_opponent_moves st /\
  strategies (detector st) = strategies st /\
  plays (detector st) = plays st /\
  ai_wins (detector st) = ai_wins st /\
  player_wins (detector st) = player_wins st.
Proof.
  unfold detector. destruct (entropy_evaluated st); [|done].
  by destruct (3 <=? stable_rounds_after st).
Qed.

(** X19: the bookkeeping keeps the tallies in step with the history: if the
    number of rounds played equals the length of the history, the sum of
    both win counts and the number of raw opponent moves, then one
    iteration never fails in the ratio's division, appends exactly the
    round's record, and the same equalities hold again; MirrorStrategy
    then predicts the move the opponent just played. *)
Theorem round_keeps_tallies `{Float} (st : locals) (my opp : Move)
    (b : BanditController.t) (io : console) (g : rng) :
  tallies_ok st ->
  let st1 := set_bandit b (detector (round_record_raw opp (round_begin st))) in
  exists st' line,
    round_report my opp (get_reward my opp) st1 io = Ok (st', print line io) /\
    tallies_ok st' /\
    history st' = history st ++ [(my, opp)] /\
    raw_opponent_moves st' = raw_opponent_moves st ++ [opp] /\
    plays st' = plays st + 1 /\
    MirrorStrategy.predict (history st') g = (g, Ok opp).
Proof.
  intros (Hplays & Hsum & Hraw) st1.
  destruct (detector_frame (round_record_raw opp (round_begin st)))
    as (Hh & Hr & _ & Hp & Ha & Hw).
  assert (Hh1 : history st1 = history st) by (unfold st1; cbn; by rewrite Hh).
  assert (Hr1 : raw_opponent_moves st1 = raw_opponent_moves st ++ [opp])
    by (unfold st1; cbn; by rewrite Hr).
  assert (Hp1 : plays st1 = plays st + 1) by (unfold st1; cbn; by rewrite Hp).
  assert (Ha1 : ai_wins st1 = ai_wins st) by (unfold st1; cbn; by rewrite Ha).
  assert (Hw1 : player_wins st1 = player_wins st) by (unfold st1; cbn; by rewrite Hw).
  clearbody st1. unfold round_report.
  destruct (Z.eqb_spec (plays st1) 0) as [Hz|_]; [lia|].
  eexists; eexists. split; [reflexivity|].
  cbn [history raw_opponent_moves plays ai_wins player_wins].
  rewrite Hh1, Hr1, Hp1, Ha1, Hw1. split; [|split; [done|split; [done|split; [done|]]]].
  - unfold tallies_ok. cbn [history raw_opponent_moves plays ai_wins player_wins].
    rewrite !length_app. cbn [length].
    split; [lia|]. split; [destruct (get_reward my opp =? 0); lia|lia].
  - unfold MirrorStrategy.predict. by rewrite last_snoc.
Qed.

Lemma round_keeps_tallies_witness :
  let st := initial_locals (H := MilliFloat) four_strategies in
  let io := {| stdin := []; stdout := [] |} in
  let g := {| draws := fun _ => (Rock, false); position := 0 |} in
  tallies_ok st /\
  exists st' line,
    round_report Rock Scissors (get_reward Rock Scissors)
      (set_bandit (bandit st) (detector (round_record_raw Scissors (round_begin st)))) io
    = Ok (st', print line io) /\
    tallies_ok st' /\
    history st' = history st ++ [(Rock, Scissors)] /\
    raw_opponent_moves st' = raw_opponent_moves st ++ [Scissors] /\
    plays st' = plays st + 1 /\
    MirrorStrategy.predict (history st') g = (g, Ok Scissors).
Proof.
  intros st io g.
  assert (Hok : tallies_ok st) by (repeat split).
  split; [exact Hok|].
  exact (round_keeps_tallies (H := MilliFloat) st Rock Scissors (bandit st) io g Hok).
Defined.

(** ** The detector: earliest shift *)

Lemma detector_round_stable_bound `{Float} (st : locals) (opp : Move) :
  0 <= entropy_stable_rounds st <= Z.max 0 (entropy_counter st - 9) ->
  let st' := detector_round st opp in
  0 <= entropy_stable_rounds st' <= Z.max 0 (entropy_counter st' - 9).
Proof.
  intros Hs. unfold detector_round, detector, entropy_evaluated, entropy_window.
  set (st1 := round_record_raw opp (round_begin st)).
  assert (Hc1 : entropy_counter st1 = entropy_counter st + 1) by reflexivity.
  assert (Hs0 : entropy_stable_rounds st1 = entropy_stable_rounds st) by reflexivity.
  assert (Hs1 : stable_rounds_after st1 = 0 \/
                stable_rounds_after st1 = entropy_stable_rounds st + 1).
  { unfold stable_rounds_after. destruct (f_ltb _ _); auto. }
  destruct (Z.leb_spec 10 (entropy_counter st1)) as [Hge|Hlt].
  - destruct (Z.leb_spec 3 (stable_rounds_after st1)) as [H3|H3];
      cbn [entropy_stable_rounds entropy_counter]; lia.
  - rewrite Hs0, Hc1. lia.
Qed.

Lemma detector_rounds_stable_bound `{Float} (v : value) (moves : list Move) :
  let st := detector_rounds (initial_locals v) moves in
  0 <= entropy_stable_rounds st <= Z.max 0 (entropy_counter st - 9).
Proof.
  induction moves as [|opp moves IH] using rev_ind.
  - cbn. lia.
  - cbn zeta in *. unfold detector_rounds in *. rewrite foldl_app. cbn [foldl].
    by apply detector_round_stable_bound.
Qed.

(** X20: a regime shift needs three evaluations in a row, and evaluations
    start in iteration 10: no shift is signalled before iteration 12,
    whatever the opponent plays. *)
Theorem no_regime_shift_before_round_12 `{Float} (v : value) (moves : list Move) (opp : Move) :
  regime_shift (round_record_raw opp (round_begin (detector_rounds (initial_locals v) moves)))
  = true ->
  (11 <= length moves)%nat.
Proof.
  intros Hshift.
  pose proof (detector_rounds_stable_bound v moves) as Hb.
  destruct (detector_rounds_inv v moves) as (_ & Hc & Hr & _).
  cbn zeta in Hb, Hc, Hr. rewrite Hr in Hc.
  set (st := detector_rounds (initial_locals v) moves) in *.
  unfold regime_shift in Hshift. apply andb_true_iff in Hshift as [_ H3].
  apply Z.leb_le in H3.
  assert (Hs : stable_rounds_after (round_record_raw opp (round_begin st))
               <= entropy_stable_rounds st + 1).
  { unfold stable_rounds_after. destruct (f_ltb _ _); cbn; lia. }
  lia.
Qed.

Lemma no_regime_shift_before_round_12_witness :
  regime_shift (H := MilliFloat)
    (round_record_raw Scissors
       (round_begin (detector_rounds (initial_locals four_strategies) uniform_moves)))
  = true /\
  (11 <= length uniform_moves)%nat.
Proof.
  assert (Hshift : regime_shift (H := MilliFloat)
            (round_record_raw Scissors
               (round_begin (detector_rounds (initial_locals four_strategies) uniform_moves)))
            = true) by (vm_compute; reflexivity).
  split; [exact Hshift|].
  exact (no_regime_shift_before_round_12 (H := MilliFloat) four_strategies
           uniform_moves Scissors Hshift).
Defined.

(** ** entropy *)

Lemma Counter_add_renamed (rename : Move -> Move) `{!Inj (=) (=) rename}
    (m : Move) (d : dict Move Z) :
  Counter_add (rename m) ((fun kc : Move * Z => (rename kc.1, kc.2)) <$> d)
  = (fun kc : Move * Z => (rename kc.1, kc.2)) <$> Counter_add m d.
Proof.
  induction d as [|[k c] d IH]; [done|].
  cbn [fmap list_fmap fst snd Counter_add].
  destruct (decide (m = k)) as [->|Hne].
  - by rewrite decide_True.
  - rewrite decide_False by (intros Heq; by apply (inj rename) in Heq).
    cbn [fmap list_fmap fst snd] in *. by rewrite IH.
Qed.

Lemma Counter_renamed (rename : Move -> Move) `{!Inj (=) (=) rename} (moves : list Move) :
  (Counter (rename <$> moves)).*2 = (Counter moves).*2.
Proof.
  assert (Hgen : forall d,
             foldl (fun d m => Counter_add m d)
               ((fun kc : Move * Z => (rename kc.1, kc.2)) <$> d) (rename <$> moves)
             = (fun kc : Move * Z => (rename kc.1, kc.2))
                 <$> foldl (fun d m => Counter_add m d) d moves).
  { induction moves as [|m moves IH]; intros d; [done|].
    cbn [fmap list_fmap foldl]. rewrite (Counter_add_renamed rename). apply IH. }
  unfold Counter. specialize (Hgen []).
  change ((fun kc : Move * Z => (rename kc.1, kc.2)) <$> []) with (@nil (Move * Z)) in Hgen.
  rewrite Hgen. generalize (foldl (fun d m => Counter_add m d) [] moves).
  intros l. induction l as [|[k c] l IH]; [done|]. cbn in *. by rewrite IH.
Qed.

(** X21: entropy looks only at how often symbols occur, in order of first
    appearance, not at which symbols they are: renaming the moves by any
    one-to-one map leaves the computed float unchanged, bit for bit. *)
Theorem entropy_renaming `{Float} (rename : Move -> Move) (moves : list Move) :
  Inj (=) (=) rename ->
  entropy (rename <$> moves) = entropy moves.
Proof.
  intros Hinj. unfold entropy. by rewrite (Counter_renamed rename moves).
Qed.

Lemma beats_inj : Inj (=) (=) beats.
Proof. intros [] [] Heq; done. Qed.

Lemma entropy_renaming_witness :
  Inj (=) (=) beats /\
  entropy (H := MilliFloat) (beats <$> [Rock; Rock; Paper])
  = entropy (H := MilliFloat) [Rock; Rock; Paper].
Proof.
  split; [exact beats_inj|].
  exact (entropy_renaming (H := MilliFloat) beats [Rock; Rock; Paper] beats_inj).
Defined.

(** ** BanditController: pull counts count pulls *)

Lemma pull_count_insert `{Float} (stats : ContextStats) (index i : nat) (r r' : F) (k : Z) :
  stats !! index = Some (r, k) ->
  pull_count (<[index := (r', k + 1)]> stats) i
  = pull_count stats i + (if decide (index = i) then 1 else 0).
Proof.
  intros Hidx. unfold pull_count. destruct (decide (index = i)) as [<-|Hne].
  - by rewrite lookup_insert_eq, Hidx.
  - rewrite lookup_insert_ne by done. lia.
Qed.

Lemma updates_for_pulls `{Float} (h : heap) (v : value) (n : nat)
    (history : list RoundRecord) (ups : list (nat * Z)) :
  py_len h v = Ok n ->
  Forall (fun u => (u.1 < n)%nat) ups ->
  forall c stats0,
    reachable h v c ->
    BanditController.context_memory c !! BanditController._context_key history
      = Some stats0 ->
    exists stats',
      reachable h v (updates_for h history ups c) /\
      BanditController.context_memory (updates_for h history ups c)
        !! BanditController._context_key history = Some stats' /\
      forall i, pull_count stats' i = pull_count stats0 i + pulls_of i ups.
Proof.
  intros Hlen Hups. induction Hups as [|[index reward] ups Hidx _ IH]; intros c stats0 Hreach Hctx.
  - exists stats0. split; [done|]. split; [done|]. intros i. cbn. lia.
  - cbn [updates_for foldl fst snd] in *.
    pose proof (reachable_ok h v n c Hlen Hreach) as Hok.
    destruct (update_effect h v n history index reward c Hlen Hok)
      as (stats & Hctx1 & Hstats & Hupd).
    destruct (ensure_context_frame h (BanditController._context_key history) c)
      as (_ & _ & Hknown).
    rewrite select_strategy_state, (Hknown ltac:(eauto)), Hctx in Hctx1.
    injection Hctx1 as <-.
    destruct (proj2 (proj1 Hstats index) Hidx) as [[r k] Hrk].
    rewrite Hrk in Hupd. destruct Hupd as (c2 & Hupd & _ & Hmem).
    assert (Hreach2 : reachable h v c2).
    { replace c2 with (BanditController.update h history index reward c).1
        by (by rewrite Hupd). by constructor. }
    assert (Hctx2 : BanditController.context_memory c2
                      !! BanditController._context_key history
                    = Some (<[index := (f_add r (f_of_int reward), k + 1)]> stats0)).
    { by rewrite Hmem, lookup_insert_eq. }
    rewrite Hupd. cbn [fst].
    destruct (IH c2 _ Hreach2 Hctx2) as (stats' & Hr' & Hc' & Hp').
    exists stats'. split; [done|]. split; [done|].
    intros i. rewrite Hp', (pull_count_insert _ _ _ _ _ _ Hrk). cbn [pulls_of]. lia.
Qed.

Lemma sum_pulls_add `{Float} (n : nat) (stats stats' : ContextStats) (ups : list (nat * Z)) :
  (forall i, pull_count stats' i = pull_count stats i + pulls_of i ups) ->
  Forall (fun u => (u.1 < n)%nat) ups ->
  sum_pulls n stats' = sum_pulls n stats + Z.of_nat (length ups).
Proof.
  intros Hp Hups.
  assert (Hsum : forall k, sum_pulls k stats'
                 = sum_pulls k stats
                   + Z.of_nat (length (filter (fun u => (u.1 < k)%nat) ups))).
  { induction k as [|k IH]; cbn [sum_pulls].
    - assert (filter (fun u : nat * Z => (u.1 < 0)%nat) ups = []) as ->; [|cbn; lia].
      clear. induction ups as [|u ups IH]; [done|].
      rewrite filter_cons_False by lia. exact IH.
    - rewrite IH, Hp.
      assert (Hsplit : Z.of_nat (length (filter (fun u : nat * Z => (u.1 < S k)%nat) ups))
                       = Z.of_nat (length (filter (fun u : nat * Z => (u.1 < k)%nat) ups))
                         + pulls_of k ups); [|lia].
      clear. induction ups as [|[j r] ups IH]; [done|].
      cbn [pulls_of]. destruct (decide (j = k)) as [->|Hne].
      + rewrite filter_cons_True by (cbn; lia).
        rewrite (filter_cons_False (fun u : nat * Z => (u.1 < k)%nat)) by (cbn; lia).
        cbn [length]. lia.
      + destruct (decide (j < k)%nat).
        * rewrite !filter_cons_True by (cbn; lia). cbn [length]. lia.
        * rewrite !filter_cons_False by (cbn; lia). lia. }
  rewrite Hsum. do 2 f_equal.
  clear -Hups. induction Hups as [|u ups Hu _ IH]; [done|].
  rewrite filter_cons_True by done. cbn [length]. by rewrite IH.
Qed.

(** X22: pull counts count pulls: after a sequence of updates for one
    context, each with an index inside the collection, the pull count of
    every index has grown by the number of updates that named it, and the
    context's total (the number under the logarithm) by the number of
    updates. *)
Theorem updates_count_pulls `{Float} (h : heap) (v : value) (n : nat)
    (history : list RoundRecord) (ups : list (nat * Z)) (c : BanditController.t) :
  py_len h v = Ok n ->
  reachable h v c ->
  Forall (fun u => (u.1 < n)%nat) ups ->
  let c0 := (BanditController.select_strategy h history c).1 in
  let c' := updates_for h history ups c0 in
  exists stats0 stats',
    BanditController.context_memory c0 !! BanditController._context_key history
      = Some stats0 /\
    BanditController.context_memory c' !! BanditController._context_key history
      = Some stats' /\
    (forall i, pull_count stats' i = pull_count stats0 i + pulls_of i ups) /\
    BanditController.total_pulls stats'
    = BanditController.total_pulls stats0 + Z.of_nat (length ups).
Proof.
  intros Hlen Hreach Hups c0 c'.
  pose proof (reachable_ok h v n c Hlen Hreach) as Hok.
  destruct (select_strategy_result h v n history c Hlen Hok)
    as (c1 & stats0 & Hctx0 & Hstats0 & _ & Hsel).
  cbn zeta in Hsel.
  assert (Hc0 : c0 = c1) by (unfold c0; by rewrite Hsel).
  assert (Hreach0 : reachable h v c0) by (unfold c0; by constructor).
  rewrite <- Hc0 in Hctx0.
  destruct (updates_for_pulls h v n history ups Hlen Hups c0 stats0 Hreach0 Hctx0)
    as (stats' & Hreach' & Hctx' & Hp).
  exists stats0, stats'. split; [done|]. split; [done|]. split; [done|].
  pose proof (reachable_ok h v n _ Hlen Hreach') as [_ Hok'].
  rewrite (total_pulls_sum n stats') by apply (Hok' _ _ Hctx').
  rewrite (total_pulls_sum n stats0) by apply Hstats0.
  by apply sum_pulls_add.
Qed.

Lemma updates_count_pulls_witness :
  let h := heap_separate_members in
  let c := BanditController.new (H := MilliFloat) four_strategies in
  let ups := [(1%nat, 1); (3%nat, -1); (1%nat, 0)] in
  py_len h four_strategies = Ok 4%nat /\
  Forall (fun u : nat * Z => (u.1 < 4)%nat) ups /\
  exists stats0 stats',
    BanditController.context_memory (BanditController.select_strategy h [] c).1
      !! BanditController._context_key [] = Some stats0 /\
    BanditController.context_memory
      (updates_for h [] ups (BanditController.select_strategy h [] c).1)
      !! BanditController._context_key [] = Some stats' /\
    (forall i, pull_count stats' i = pull_count stats0 i + pulls_of i ups) /\
    BanditController.total_pulls stats'
    = BanditController.total_pulls stats0 + Z.of_nat (length ups).
Proof.
  intros h c ups.
  assert (Hups : Forall (fun u : nat * Z => (u.1 < 4)%nat) ups)
    by (repeat constructor).
  split; [reflexivity|]. split; [exact Hups|].
  apply (updates_count_pulls (H := MilliFloat) h four_strategies 4 [] ups c).
  - reflexivity.
  - constructor.
  - exact Hups.
Defined.
